(** * PocketBase / LemonSqueezy hooks: a shallow embedding of [main.pb.js]

    The repository is one hook file that registers four route handlers with
    the PocketBase JavaScript runtime:

    - [POST /lemonsqueezy]                 (webhook intake),
    - [POST /create-checkout-session]      (lazy customer creation + checkout),
    - [GET  /create-portal-link]           (customer portal link),
    - [GET  /manual-lemonsqueezy-synchronization] (pull and upsert).

    The handlers are translated statement by statement into a state and
    exception monad over a [World] (the record store plus the trace of the
    host calls made so far).  Everything the hooks call but do not define
    ([$security], [$app.dao()], [$http], the logger, the request object) is
    the host runtime; it is taken as a parameter, the record [Host].

    Conventions of the embedding:

    - a handler is its body run in order: every host call is synchronous, so
      [await e] is [e], and an exception that leaves an [async] body is the
      handler's outcome [Throw];
    - an answer of the host depends on the call's arguments (and, for
      [saveRecord], on the store), not on the time of the call; no handler
      sends the same request twice;
    - the block of lines 64-95 is repeated in the sync job and the
      update-or-create tail is repeated in every upsert; each is written
      once here ([upsert_subscription], [update_or_create]), as is the
      fetch-and-loop of the three sync stages ([sync_stage]). *)

From Stdlib Require Import ZArith Lia Ascii String.
From stdpp Require Import base option strings list gmap pretty.

#[local] Set Warnings "-register-all".
Open Scope string_scope.

(** ** JavaScript values *)

(** What a [throw] can carry in this file: [new BadRequestError(msg)], the
    [TypeError] the engine raises on a property read of [undefined]/[null]
    or a call of a non-function, and an error raised by a host (Go) call. *)
Inductive Exn : Type :=
  | BadRequestError (msg : string)
  | TypeError (msg : string)
  | GoError (msg : string).

(** [err.message]. *)
Definition message (e : Exn) : string :=
  match e with
  | BadRequestError m | TypeError m | GoError m => m
  end.

(** JSON-shaped JavaScript values.  Objects keep their keys in insertion
    order.  Numbers are the integers; no handler does arithmetic on them.
    [JErr] is an error object held as a value ([{ "message": error }]). *)
Inductive JSValue : Type :=
  | JUndefined
  | JNull
  | JBool (b : bool)
  | JNum (n : Z)
  | JStr (s : string)
  | JArr (items : list JSValue)
  | JObj (props : list (string * JSValue))
  | JErr (e : Exn).

Abbreviation Obj := (list (string * JSValue)).

Inductive Result (A : Type) : Type :=
  | Ok (a : A)
  | Throw (e : Exn).
Arguments Ok {A} a.
Arguments Throw {A} e.

(** First binding of [k] in an object. *)
Fixpoint own (props : Obj) (k : string) : JSValue :=
  match props with
  | [] => JUndefined
  | (k', v) :: rest => if String.eqb k' k then v else own rest k
  end.

(** [v.k]: a read of [undefined] or [null] throws; an object yields the
    property or [undefined]; every other value yields [undefined] (none of
    the property names read by the handlers is a prototype member). *)
Definition prop (v : JSValue) (k : string) : Result JSValue :=
  match v with
  | JUndefined =>
      Throw (TypeError ("Cannot read property '" ++ k ++ "' of undefined"))
  | JNull =>
      Throw (TypeError ("Cannot read property '" ++ k ++ "' of null"))
  | JObj props => Ok (own props k)
  | _ => Ok JUndefined
  end.

(** [v?.k]: short-circuits to [undefined] on [undefined]/[null]. *)
Definition opt_prop (v : JSValue) (k : string) : JSValue :=
  match v with
  | JObj props => own props k
  | _ => JUndefined
  end.

(** Truthiness, and [a || b]. *)
Definition truthy (v : JSValue) : bool :=
  match v with
  | JUndefined | JNull => false
  | JBool b => b
  | JNum n => negb (n =? 0)%Z
  | JStr s => negb (String.eqb s "")
  | JArr _ | JObj _ | JErr _ => true
  end.

Definition js_or (a b : JSValue) : JSValue := if truthy a then a else b.

(** [a === b] against a string constant, as the [switch] and the
    [status === "published"] tests use it. *)
Definition strict_eq_str (v : JSValue) (s : string) : bool :=
  match v with
  | JStr s' => String.eqb s' s
  | _ => false
  end.

(** String conversion, as a template literal [`${v}`] performs it. *)
Fixpoint ToString (v : JSValue) : string :=
  match v with
  | JUndefined => "undefined"
  | JNull => "null"
  | JBool true => "true"
  | JBool false => "false"
  | JNum n => pretty n
  | JStr s => s
  | JArr items =>
      let piece x :=
        match x with
        | JUndefined | JNull => ""
        | _ => ToString x
        end in
      String.concat "," (map piece items)
  | JObj _ => "[object Object]"
  | JErr e => "Error: " ++ message e
  end.

(** [JSON.stringify]: [None] stands for the [undefined] it returns on
    [undefined].  A property whose value is [undefined] is left out of an
    object and printed as [null] inside an array; an error object has no
    enumerable property. *)
Definition dquote : ascii := ascii_of_N 34.

Definition hex_digit (n : N) : ascii :=
  match n with
  | 0 => "0" | 1 => "1" | 2 => "2" | 3 => "3" | 4 => "4" | 5 => "5"
  | 6 => "6" | 7 => "7" | 8 => "8" | 9 => "9" | 10 => "a" | 11 => "b"
  | 12 => "c" | 13 => "d" | 14 => "e" | _ => "f"
  end%N%char.

Definition escape_char (c : ascii) : string :=
  let n := N_of_ascii c in
  if (n =? 34)%N then "\" ++ String c ""
  else if (n =? 92)%N then "\\"
  else if (n =? 8)%N then "\b"
  else if (n =? 12)%N then "\f"
  else if (n =? 10)%N then "\n"
  else if (n =? 13)%N then "\r"
  else if (n =? 9)%N then "\t"
  else if (n <? 32)%N then
    "\u00" ++ String (hex_digit (n / 16)) (String (hex_digit (n mod 16)) "")
  else String c "".

Fixpoint escape (s : string) : string :=
  match s with
  | EmptyString => ""
  | String c rest => escape_char c ++ escape rest
  end.

Definition quote (s : string) : string :=
  String dquote (escape s) ++ String dquote "".

Fixpoint JSON_stringify (v : JSValue) : option string :=
  match v with
  | JUndefined => None
  | JNull => Some "null"
  | JBool true => Some "true"
  | JBool false => Some "false"
  | JNum n => Some (pretty n)
  | JStr s => Some (quote s)
  | JArr items =>
      let element x := default "null" (JSON_stringify x) in
      Some ("[" ++ String.concat "," (map element items) ++ "]")
  | JObj props =>
      let member :=
        fix member (ps : list (string * JSValue)) : list string :=
          match ps with
          | [] => []
          | (k, x) :: rest =>
              match JSON_stringify x with
              | Some s => (quote k ++ ":" ++ s) :: member rest
              | None => member rest
              end
          end in
      Some ("{" ++ String.concat "," (member props) ++ "}")
  | JErr _ => Some "{}"
  end.

(** [JSON.stringify(v)] where the result is used as a string. *)
Definition stringify (v : JSValue) : string :=
  default "undefined" (JSON_stringify v).


(** ** Records, the record store and the world *)

(** A stored record: the collection it belongs to and its field values. *)
Record Row : Type := mkRow {
  row_coll : string;
  row_data : gmap string JSValue
}.

(** The record store.  No handler deletes a record, so a record is
    identified by its position: a new record is appended, a saved existing
    record is written back at its index. *)
Abbreviation Store := (list Row).

(** A [Record] object in the script.  [rec_id] is [None] for a
    [new Record(collection)] that has not been saved yet. *)
Record DbRecord : Type := mkRecord {
  rec_id : option nat;
  rec_coll : string;
  rec_data : gmap string JSValue
}.

(** The auth record [findAuthRecordByToken] returns ([userRecord]). *)
Record AuthRecord : Type := mkAuth {
  auth_id : string;
  auth_data : gmap string JSValue
}.

(** The argument of [$http.send]. *)
Record HttpRequest : Type := mkHttp {
  url : string;
  method : string;
  headers : list (string * string);
  body : string;
  timeout : option Z
}.

(** The request as the handlers read it: [info.headers],
    [readerToString(c.request().body)] and [info.data]. *)
Record Request : Type := mkRequest {
  req_headers : gmap string string;
  req_rawBody : string;
  req_data : JSValue
}.

(** What [c.json(status, body)] sends. *)
Record Response : Type := json {
  status : JSValue;
  payload : JSValue
}.

(** One entry per host call, oldest first. *)
Inductive Event : Type :=
  | EvAuth (token : string)
  | EvFind (coll filter : string)
  | EvFindCollection (coll : string)
  | EvSave (r : DbRecord)
  | EvHttp (req : HttpRequest)
  | EvLog (level msg : string).

Record World : Type := mkWorld {
  store : Store;
  trace : list Event
}.

(** The host runtime, as far as the handlers depend on it.  [secret] and
    [apiKey] are the two constants the file tells its user to replace. *)
Record Host : Type := mkHost {
  secret : string;
  apiKey : string;
  (** [$security.hs256(text, secret)] *)
  hs256 : string -> string -> string;
  (** [$app.dao().findAuthRecordByToken(token, ...)] *)
  auth_by_token : string -> Result AuthRecord;
  (** the collections of the imported schema *)
  has_collection : string -> bool;
  (** the host's filter language: [None] on a filter it rejects *)
  eval_filter : string -> option (gmap string JSValue -> bool);
  (** validation and persistence failures of [saveRecord] *)
  save_check : Store -> DbRecord -> option Exn;
  (** [$http.send(config)]: the response object, or a transport error *)
  http_response : HttpRequest -> Result JSValue
}.

(** ** The handler monad: state and exceptions *)

Definition M (A : Type) : Type := World -> Result A * World.

Definition ret {A} (a : A) : M A := fun w => (Ok a, w).

Definition throw {A} (e : Exn) : M A := fun w => (Throw e, w).

Definition bind {A B} (m : M A) (k : A -> M B) : M B :=
  fun w =>
    match m w with
    | (Ok a, w') => k a w'
    | (Throw e, w') => (Throw e, w')
    end.

(** [try { m } catch (err) { h err }] *)
Definition try_catch {A} (m : M A) (h : Exn -> M A) : M A :=
  fun w =>
    match m w with
    | (Ok a, w') => (Ok a, w')
    | (Throw e, w') => h e w'
    end.

Definition lift {A} (r : Result A) : M A := fun w => (r, w).

Definition emit (e : Event) : M unit :=
  fun w => (Ok tt, mkWorld (store w) (trace w ++ [e])).

Declare Scope js_scope.
Delimit Scope js_scope with js.
Notation "'let!' x ':=' m 'in' k" := (bind m (fun x => k))
  (at level 10, x name, m at level 100, k at level 200) : js_scope.
Notation "m ';;' k" := (bind m (fun _ => k))
  (at level 100, k at level 200, right associativity) : js_scope.
Open Scope js_scope.

(** [array.forEach(f)]: the callback runs on each item in order; an
    exception it throws leaves the loop. *)
Fixpoint forEach {A} (f : A -> M unit) (items : list A) : M unit :=
  match items with
  | [] => ret tt
  | x :: rest => f x;; forEach f rest
  end.

(** [v.forEach(f)] on a value: only an array has the method. *)
Definition js_forEach (v : JSValue) (f : JSValue -> M unit) : M unit :=
  match v with
  | JArr items => forEach f items
  | JUndefined =>
      throw (TypeError "Cannot read property 'forEach' of undefined")
  | JNull => throw (TypeError "Cannot read property 'forEach' of null")
  | _ => throw (TypeError "Object has no member 'forEach'")
  end.

(** ** Record methods *)

(** [record.load(obj)]: every key of [obj] is set on the record. *)
Definition load (obj : Obj) (r : DbRecord) : DbRecord :=
  mkRecord (rec_id r) (rec_coll r)
           (foldl (fun m kv => <[kv.1 := kv.2]> m) (rec_data r) obj).

(** [new Record(collection)] *)
Definition new_Record (collection : string) : DbRecord :=
  mkRecord None collection ∅.

(** [record.get(k)] *)
Definition get (data : gmap string JSValue) (k : string) : JSValue :=
  default JUndefined (data !! k).

(** [record.getString(k)]: the host's cast of the field to a string. *)
Definition getString (data : gmap string JSValue) (k : string) : string :=
  match data !! k with
  | Some (JStr s) => s
  | Some (JNum n) => pretty n
  | Some (JBool true) => "true"
  | Some (JBool false) => "false"
  | _ => ""
  end.

(** The field [field] of a record holds exactly the string [lit]. *)
Definition field_is (field lit : string) (data : gmap string JSValue) : bool :=
  match data !! field with
  | Some (JStr s) => String.eqb s lit
  | _ => false
  end.

(** ** Host calls *)

Section Hooks.

Variable H : Host.

(** The records of [coll] that [keep] accepts, in store order, each with
    the id under which a later [saveRecord] writes it back. *)
Definition hit (coll : string) (keep : gmap string JSValue -> bool)
    (row : Row) : bool :=
  String.eqb (row_coll row) coll && keep (row_data row).

Definition matching (coll : string) (keep : gmap string JSValue -> bool)
    (s : Store) : list DbRecord :=
  omap (fun x => x)
    (imap (fun i row =>
             if hit coll keep row
             then Some (mkRecord (Some i) (row_coll row) (row_data row))
             else None) s).

(** What a lookup returns on a given store. *)
Definition find_in (coll filter : string) (s : Store)
    : Result (list DbRecord) :=
  if has_collection H coll then
    match eval_filter H filter with
    | Some keep => Ok (matching coll keep s)
    | None => Throw (GoError "invalid filter expression")
    end
  else Throw (GoError "missing collection").

(** [$app.dao().findRecordsByFilter(coll, filter)] *)
Definition findRecordsByFilter (coll filter : string) : M (list DbRecord) :=
  emit (EvFind coll filter);;
  fun w => (find_in coll filter (store w), w).

(** [$app.dao().findFirstRecordByFilter(coll, filter)]: the first match;
    the host raises "no rows" when there is none, so the [None] that the
    caller's [if (!customerRecord)] tests for is never returned. *)
Definition findFirstRecordByFilter (coll filter : string)
    : M (option DbRecord) :=
  let! found := findRecordsByFilter coll filter in
  match found with
  | r :: _ => ret (Some r)
  | [] => throw (GoError "sql: no rows in result set")
  end.

(** [$app.dao().findCollectionByNameOrId(name)] *)
Definition findCollectionByNameOrId (name : string) : M string :=
  emit (EvFindCollection name);;
  if has_collection H name then ret name
  else throw (GoError "missing collection").

(** [$app.dao().saveRecord(record)]: a new record is appended, an existing
    one is written back in place; nothing is written when the host refuses
    the record. *)
Definition saveRecord (r : DbRecord) : M unit :=
  emit (EvSave r);;
  fun w =>
    match save_check H (store w) r with
    | Some e => (Throw e, w)
    | None =>
        let row := mkRow (rec_coll r) (rec_data r) in
        match rec_id r with
        | None => (Ok tt, mkWorld (store w ++ [row]) (trace w))
        | Some i => (Ok tt, mkWorld (<[i := row]> (store w)) (trace w))
        end
    end.

(** [$app.dao().findAuthRecordByToken(token, secret)] *)
Definition findAuthRecordByToken (token : string) : M AuthRecord :=
  emit (EvAuth token);; lift (auth_by_token H token).

(** [$http.send(config)] *)
Definition http_send (req : HttpRequest) : M JSValue :=
  emit (EvHttp req);; lift (http_response H req).

(** [$app.logger().info(msg, ...)] and [.error(msg, ...)] *)
Definition logger_info (msg : string) : M unit := emit (EvLog "info" msg).
Definition logger_error (msg : string) : M unit := emit (EvLog "error" msg).

(** [$security.equal(a, b)]: constant-time comparison of two strings. *)
Definition security_equal (a b : string) : bool := String.eqb a b.

(** [info.headers[k]] *)
Definition header (info : Request) (k : string) : JSValue :=
  match req_headers info !! k with
  | Some v => JStr v
  | None => JUndefined
  end.

(** The template literal [`<field> = "${v}"`]. *)
Definition filter_eq (field : string) (v : JSValue) : string :=
  field ++ " = " ++ String dquote (ToString v) ++ String dquote "".

(** ** [POST /lemonsqueezy] *)

(** The object literal [subscriptionData] (lines 69-84 and 452-467). *)
Definition subscriptionData (subscription id : JSValue) : Obj :=
  let attributes := opt_prop subscription "attributes" in
  [ ("subscription_id", id);
    ("lemonsqueezy_customer_id",
       js_or (opt_prop attributes "customer_id") (JStr ""));
    ("status", js_or (opt_prop attributes "status") (JStr ""));
    ("variant_id", js_or (opt_prop attributes "variant_id") (JStr ""));
    ("quantity",
       js_or (opt_prop (opt_prop attributes "first_subscription_item")
                       "quantity") (JNum 0));
    ("metadata", JStr (stringify (JObj [])));
    ("cancel_at_period_end",
       js_or (opt_prop attributes "cancelled") (JBool false));
    ("current_period_start",
       js_or (opt_prop attributes "created_at") (JStr ""));
    ("current_period_end",
       js_or (opt_prop attributes "renews_at") (JStr ""));
    ("ended_at", js_or (opt_prop attributes "ends_at") (JStr ""));
    ("cancel_at", JStr "");
    ("canceled_at", JStr "");
    ("trial_start", JStr "");
    ("trial_end", js_or (opt_prop attributes "trial_ends_at") (JStr "")) ].

(** The find-then-update-or-create tail every upsert block ends with. *)
Definition update_or_create (coll : string) (existing : list DbRecord)
    (data : Obj) : M unit :=
  match existing with
  | record :: _ => saveRecord (load data record)
  | [] =>
      let! collection := findCollectionByNameOrId coll in
      saveRecord (load data (new_Record collection))
  end.

(** The statements of the [try] block once [subscription] is bound
    (lines 64-95 and 447-478, the same text).  [subscription.id] is read
    once here and handed to [subscriptionData]; the source reads it twice,
    and the second read cannot throw. *)
Definition upsert_subscription (subscription : JSValue) : M unit :=
  let! sid := lift (prop subscription "id") in
  let! existingSubscriptions :=
    findRecordsByFilter "subscription" (filter_eq "subscription_id" sid) in
  let subscriptionData := subscriptionData subscription sid in
  update_or_create "subscription" existingSubscriptions subscriptionData.

(** The [catch (err)] clause of lines 96-99 and 479-482. *)
Definition subscription_failed (err : Exn) : M unit :=
  logger_error "Error processing subscription:";;
  throw (BadRequestError ("Failed to process subscription: " ++ message err)).

(** The callback of [subscriptionsData.data.forEach] (lines 445-483). *)
Definition process_subscription (subscription : JSValue) : M unit :=
  try_catch (upsert_subscription subscription) subscription_failed.

(** The three [case] labels of the [switch]. *)
Definition recognized_event (event_name : JSValue) : bool :=
  strict_eq_str event_name "subscription_created"
  || strict_eq_str event_name "subscription_cancelled"
  || strict_eq_str event_name "subscription_updated".

(** [data.meta.event_name] *)
Definition event_name (data : JSValue) : Result JSValue :=
  match prop data "meta" with
  | Ok meta => prop meta "event_name"
  | Throw e => Throw e
  end.

(** The signature the handler compares the digest with:
    [info.headers["x_signature"] || '']. *)
Definition signature_of (info : Request) : string :=
  ToString (js_or (header info "x_signature") (JStr "")).

Definition lemonsqueezy (c : Request) : M Response :=
  let info := c in
  let signature := signature_of info in
  let rawBody := req_rawBody c in
  let hash := hs256 H rawBody (secret H) in
  let isValid := security_equal hash signature in
  if negb isValid then
    throw (BadRequestError "Invalid webhook signature.")
  else
    let data := req_data info in
    let! name := lift (event_name data) in
    logger_info "Received data:";;
    (if recognized_event name then
       try_catch
         (let! subscription := lift (prop data "data") in
          upsert_subscription subscription)
         subscription_failed
     else ret tt);;
    ret (json (JNum 200)
              (JObj [("message", JStr "Data received successfully")])).

(** ** [POST /create-checkout-session] *)

(** [info.headers["authorization"] || ''] *)
Definition token_of (info : Request) : string :=
  ToString (js_or (header info "authorization") (JStr "")).

Definition api_headers : list (string * string) :=
  [ ("Accept", "application/vnd.api+json");
    ("Content-Type", "application/vnd.api+json");
    ("Authorization", "Bearer " ++ apiKey H) ].

Definition store_relationship : JSValue :=
  JObj [("data", JObj [("type", JStr "stores"); ("id", JStr "116661")])].

(** The customer-creation call of lines 131-157. *)
Definition customer_request (userRecord : AuthRecord) : HttpRequest :=
  mkHttp "https://api.lemonsqueezy.com/v1/customers" "POST" api_headers
    (stringify
       (JObj [("data", JObj
          [ ("type", JStr "customers");
            ("attributes", JObj
               [ ("name",
                    JStr (getString (auth_data userRecord) "displayName"));
                 ("email",
                    JStr (getString (auth_data userRecord) "email")) ]);
            ("relationships", JObj [("store", store_relationship)]) ])]))
    None.

(** [requestBody] (lines 174-205). *)
Definition requestBody (userRecord : AuthRecord) (variant_id : JSValue)
    : JSValue :=
  JObj [("data", JObj
    [ ("type", JStr "checkouts");
      ("attributes", JObj
         [ ("checkout_options", JObj [("button_color", JStr "#7047EB")]);
           ("checkout_data", JObj
              [ ("name",
                   JStr (getString (auth_data userRecord) "displayName"));
                ("email", JStr (getString (auth_data userRecord) "email"));
                ("custom", JObj [("user_id", JStr (auth_id userRecord))]) ]);
           ("preview", JBool true) ]);
      ("relationships", JObj
         [ ("variant", JObj [("data", JObj [ ("type", JStr "variants");
                                             ("id", variant_id) ])]);
           ("store", store_relationship) ]) ])].

Definition checkout_request (body : JSValue) : HttpRequest :=
  mkHttp "https://api.lemonsqueezy.com/v1/checkouts" "POST" api_headers
    (stringify body) None.

(** The filter [`user_id = "${userRecord.id}"`]. *)
Definition customer_filter (userRecord : AuthRecord) : string :=
  filter_eq "user_id" (JStr (auth_id userRecord)).

(** [customerResponse.json.data.id], the vendor-assigned customer id. *)
Definition response_data_id (response : JSValue) : Result JSValue :=
  match prop response "json" with
  | Ok customerData =>
      match prop customerData "data" with
      | Ok data => prop data "id"
      | Throw e => Throw e
      end
  | Throw e => Throw e
  end.

(** The [else] branch of lines 130-170: create the vendor customer, then
    the local customer record.  Nothing here is inside a [try]. *)
Definition create_customer (userRecord : AuthRecord) : M JSValue :=
  let! customerResponse := http_send (customer_request userRecord) in
  let! lemonsqueezyCustomerId := lift (response_data_id customerResponse) in
  let! collection := findCollectionByNameOrId "customer" in
  let newCustomerRecord :=
    load [ ("lemonsqueezy_customer_id", lemonsqueezyCustomerId);
           ("user_id", JStr (auth_id userRecord)) ]
         (new_Record collection) in
  saveRecord newCustomerRecord;;
  ret lemonsqueezyCustomerId.

(** Lines 207-224. *)
Definition send_checkout (body : JSValue) : M Response :=
  try_catch
    (let! response := http_send (checkout_request body) in
     let! responseData := lift (prop response "json") in
     let! response_status := lift (prop response "status") in
     ret (json response_status responseData))
    (fun error =>
       logger_error "Error creating checkout:";;
       ret (json (JNum 400)
                 (JObj [("message", JStr "Failed to create checkout")]))).

(** The handler after [userRecord] is bound (lines 120-224). *)
Definition checkout_for (info : Request) (userRecord : AuthRecord)
    : M Response :=
  let! existingCustomer :=
    findRecordsByFilter "customer" (customer_filter userRecord) in
  let! lemonsqueezyCustomerId :=
    match existingCustomer with
    | r :: _ => ret (JStr (getString (rec_data r) "lemonsqueezy_customer_id"))
    | [] => create_customer userRecord
    end in
  let! variant_id := lift (prop (req_data info) "variant_id") in
  send_checkout (requestBody userRecord variant_id).

Definition create_checkout_session (c : Request) : M Response :=
  let info := c in
  let token := token_of info in
  let! user :=
    try_catch
      (let! userRecord := findAuthRecordByToken token in
       ret (inr userRecord))
      (fun error =>
         ret (inl (json (JNum 400)
                        (JObj [("message", JStr "User not authorized")])))) in
  match user with
  | inl unauthorized => ret unauthorized
  | inr userRecord => checkout_for info userRecord
  end.

(** ** [GET /create-portal-link] *)

Definition portal_request (customer_id : JSValue) : HttpRequest :=
  mkHttp ("https://api.lemonsqueezy.com/v1/customers/" ++ ToString customer_id)
    "GET" api_headers "" None.

Definition create_portal_link (c : Request) : M Response :=
  let info := c in
  let token := token_of info in
  try_catch
    (let! userRecord := findAuthRecordByToken token in
     let! found :=
       findFirstRecordByFilter "customer" (customer_filter userRecord) in
     match found with
     | None =>
         ret (json (JNum 404) (JObj [("message", JStr "Customer not found")]))
     | Some customerRecord =>
         let! response :=
           http_send (portal_request
                        (get (rec_data customerRecord)
                             "lemonsqueezy_customer_id")) in
         let! responseData := lift (prop response "json") in
         let! data := lift (prop responseData "data") in
         let! attributes := lift (prop data "attributes") in
         let! urls := lift (prop attributes "urls") in
         let! customerPortalLink := lift (prop urls "customer_portal") in
         let! response_status := lift (prop response "status") in
         ret (json response_status
                   (JObj [("customer_portal_link", customerPortalLink)]))
     end)
    (fun error =>
       logger_error "Error retrieving customer portal link:";;
       ret (json (JNum 400)
                 (JObj [("message",
                         JStr "Failed to retrieve customer portal link")]))).

(** ** [GET /manual-lemonsqueezy-synchronization] *)

Definition list_request (resource : string) : HttpRequest :=
  mkHttp ("https://api.lemonsqueezy.com/v1/" ++ resource) "GET" api_headers
    "" (Some 120%Z).

(** [variantData] (lines 505-517), once [variant.attributes] is known not
    to be [undefined] or [null]. *)
Definition variantData (id attributes : JSValue) : Obj :=
  [ ("variant_id", id);
    ("product_id", opt_prop attributes "product_id");
    ("active", JBool (strict_eq_str (opt_prop attributes "status")
                                    "published"));
    ("description", opt_prop attributes "description");
    ("currency", JStr "USD");
    ("unit_amount", opt_prop attributes "price");
    ("type", if truthy (opt_prop attributes "is_subscription")
             then JStr "subscription" else JStr "one-time");
    ("interval", opt_prop attributes "interval");
    ("interval_count", opt_prop attributes "interval_count");
    ("trial_period_days",
       if truthy (opt_prop attributes "has_free_trial")
       then opt_prop attributes "trial_interval_count" else JNum 0);
    ("metadata", JStr (stringify (JObj []))) ].

(** The callback of [variantsData.data.forEach] (lines 498-533). *)
Definition process_variant (variant : JSValue) : M unit :=
  try_catch
    (let! vid := lift (prop variant "id") in
     let! existingVariants :=
       findRecordsByFilter "variant" (filter_eq "variant_id" vid) in
     let! attributes := lift (prop variant "attributes") in
     let! product_id := lift (prop attributes "product_id") in
     update_or_create "variant" existingVariants (variantData vid attributes))
    (fun err =>
       logger_error "Error processing variant:";;
       throw (BadRequestError ("Failed to process variant: " ++ message err))).

(** [productData] (lines 555-562). *)
Definition productData (id attributes : JSValue) : Obj :=
  [ ("product_id", id);
    ("active", JBool (strict_eq_str (opt_prop attributes "status")
                                    "published"));
    ("name", opt_prop attributes "name");
    ("description", opt_prop attributes "description");
    ("image", opt_prop attributes "thumb_url");
    ("metadata", JStr (stringify (JObj []))) ].

(** The callback of [productsData.data.forEach] (lines 548-578). *)
Definition process_product (product : JSValue) : M unit :=
  try_catch
    (let! pid := lift (prop product "id") in
     let! existingProducts :=
       findRecordsByFilter "product" (filter_eq "product_id" pid) in
     let! attributes := lift (prop product "attributes") in
     let! status := lift (prop attributes "status") in
     update_or_create "product" existingProducts (productData pid attributes))
    (fun err =>
       logger_error "Error processing product:";;
       throw (BadRequestError ("Failed to process product: " ++ message err))).

(** One stage of the job: fetch a vendor list, run the callback on each
    item of [response.json.data]. *)
Definition sync_stage (resource : string) (callback : JSValue -> M unit)
    : M unit :=
  let! res := http_send (list_request resource) in
  let! data := lift (prop res "json") in
  let! items := lift (prop data "data") in
  js_forEach items callback.

(** The [try] block of lines 431-581. *)
Definition sync_all : M Response :=
  sync_stage "subscriptions" process_subscription;;
  sync_stage "variants" process_variant;;
  sync_stage "products" process_product;;
  logger_info "Ran sync";;
  ret (json (JNum 200) (JObj [("message", JStr "success")])).

Definition manual_lemonsqueezy_synchronization (c : Request) : M Response :=
  try_catch sync_all
    (fun error =>
       logger_error "Error during synchronization:";;
       ret (json (JNum 400) (JObj [("message", JErr error)]))).

End Hooks.

(** ** What the properties observe *)



(** The host reads the filter [<field> = "<lit>"] as: the field holds the
    string [lit]. *)
Definition equality_filter (H : Host) (field lit : string) : Prop :=
  exists keep,
    eval_filter H (filter_eq field (JStr lit)) = Some keep
    /\ forall data, keep data = field_is field lit data.

(** The customer records, in store order. *)
Definition customers (s : Store) : list Row :=
  filter (fun row => row_coll row = "customer") s.

Definition is_customer_call (e : Event) : bool :=
  match e with
  | EvHttp req =>
      String.eqb (url req) "https://api.lemonsqueezy.com/v1/customers"
      && String.eqb (method req) "POST"
  | _ => false
  end.

(** The vendor customer-creation calls recorded in a trace. *)
Definition customer_calls (t : list Event) : nat :=
  length (filter (fun e => is_customer_call e = true) t).

Definition is_save (e : Event) : bool :=
  match e with
  | EvSave _ => true
  | _ => false
  end.

(** The [saveRecord] calls recorded in a trace. *)
Definition saves (t : list Event) : nat :=
  length (filter (fun e => is_save e = true) t).


(** The binding of [k] that [record.load(obj)] leaves in place: the last
    one in [obj]. *)
Fixpoint last_binding (obj : Obj) (k : string) : option JSValue :=
  match obj with
  | [] => None
  | (k', v) :: rest =>
      match last_binding rest k with
      | Some v' => Some v'
      | None => if String.eqb k' k then Some v else None
      end
  end.

(** The store after record [r] has been written to store [s]. *)
Definition written (r : DbRecord) (s : Store) : Store :=
  match rec_id r with
  | None => s ++ [mkRow (rec_coll r) (rec_data r)]
  | Some i => <[i := mkRow (rec_coll r) (rec_data r)]> s
  end.

(** [res.json.data] of the vendor's answer to a list request. *)
Definition vendor_list (H : Host) (resource : string) : Result JSValue :=
  match http_response H (list_request H resource) with
  | Ok res =>
      match prop res "json" with
      | Ok data => prop data "data"
      | Throw e => Throw e
      end
  | Throw e => Throw e
  end.

(** The world once a list request has been sent. *)
Definition fetched (H : Host) (resource : string) (w : World) : World :=
  mkWorld (store w) (trace w ++ [EvHttp (list_request H resource)]).

(** The three stages of the sync job, in the order they run. *)
Inductive Stage : Type := Subscriptions | Variants | Products.

Definition resource_of (st : Stage) : string :=
  match st with
  | Subscriptions => "subscriptions"
  | Variants => "variants"
  | Products => "products"
  end.

Definition callback_of (H : Host) (st : Stage) : JSValue -> M unit :=
  match st with
  | Subscriptions => process_subscription H
  | Variants => process_variant H
  | Products => process_product H
  end.

(** The stages that run before stage [st]. *)
Definition stages_before (H : Host) (st : Stage) : M unit :=
  match st with
  | Subscriptions => ret tt
  | Variants => sync_stage H "subscriptions" (process_subscription H)
  | Products =>
      sync_stage H "subscriptions" (process_subscription H);;
      sync_stage H "variants" (process_variant H)
  end.

(** The computation [m] leaves the view [f] of the store as it found it,
    whether it returns or throws. *)
Definition preserves {X A} (f : Store -> X) (m : M A) : Prop :=
  forall w, f (store (snd (m w))) = f (store w).


(** The collection a sync stage writes to, and the field its lookup
    filters on ([subscription_id], [variant_id], [product_id]). *)
Definition coll_of (st : Stage) : string :=
  match st with
  | Subscriptions => "subscription"
  | Variants => "variant"
  | Products => "product"
  end.

Definition key_field (coll : string) : string := coll ++ "_id".

(** The number of records of [coll] whose key field holds the string [k]. *)
Definition keyed_count (coll k : string) (s : Store) : nat :=
  length (matching coll (field_is (key_field coll) k) s).

(** No collection has more than one record per key. *)
Definition unique_keys (coll : string) (s : Store) : Prop :=
  forall k, (keyed_count coll k s <= 1)%nat.

(** No key has fewer records in [s'] than in [s]. *)
Definition grows (s s' : Store) : Prop :=
  forall coll k, (keyed_count coll k s <= keyed_count coll k s')%nat.

(** A vendor item whose [id] is a string that the host's filter on [field]
    compares by equality. *)
Definition keyed (H : Host) (field : string) (item : JSValue) : Prop :=
  exists sid,
    prop item "id" = Ok (JStr sid) /\ equality_filter H field sid.

(** Every item of every list the vendor answers with is [keyed]. *)
Definition vendor_keyed (H : Host) : Prop :=
  forall st items,
    vendor_list H (resource_of st) = Ok (JArr items) ->
    forall item, item ∈ items -> keyed H (key_field (coll_of st)) item.

(** Every item of the vendor's list for stage [st] has a record in [s]. *)
Definition listed_present (H : Host) (st : Stage) (s : Store) : Prop :=
  forall items,
    vendor_list H (resource_of st) = Ok (JArr items) ->
    forall item sid,
      item ∈ items -> prop item "id" = Ok (JStr sid) ->
      (1 <= keyed_count (coll_of st) sid s)%nat.

Definition is_http (e : Event) : bool :=
  match e with
  | EvHttp _ => true
  | _ => false
  end.

(** The [$http.send] calls recorded in a trace. *)
Definition http_calls (t : list Event) : nat :=
  length (filter (fun e => is_http e = true) t).


(** What [subscriptionData] holds when the payload has no [attributes]. *)
Definition subscription_defaults (id : JSValue) : Obj :=
  [ ("subscription_id", id);
    ("lemonsqueezy_customer_id", JStr "");
    ("status", JStr "");
    ("variant_id", JStr "");
    ("quantity", JNum 0);
    ("metadata", JStr "{}");
    ("cancel_at_period_end", JBool false);
    ("current_period_start", JStr "");
    ("current_period_end", JStr "");
    ("ended_at", JStr "");
    ("cancel_at", JStr "");
    ("canceled_at", JStr "");
    ("trial_start", JStr "");
    ("trial_end", JStr "") ].

(** ** A reference host

    The properties below hold for every [Host].  This one serves to run the
    handlers on concrete requests. *)
Module Reference.

(** A stand-in for the digest with the shape of an [hs256] result: 64
    lowercase hexadecimal digits computed from the key and the text. *)
Fixpoint mix (acc : N) (s : string) : N :=
  match s with
  | EmptyString => acc
  | String c rest =>
      mix ((acc * 0x9e3779b97f4a7c15f39cc0605cedc835 + N_of_ascii c)
           mod 2 ^ 256)%N rest
  end.

Fixpoint hex (digits : nat) (n : N) (tail : string) : string :=
  match digits with
  | O => tail
  | S d => hex d (n / 16)%N (String (hex_digit (n mod 16)%N) tail)
  end.

Definition digest (text key : string) : string :=
  hex 64 (mix (mix 1%N key) text) "".

(** The equality fragment of the filter language: [<field> = "<literal>"],
    the literal free of quotes and backslashes.  Any other filter is
    refused. *)
Definition eq_sign : string := " = " ++ String dquote "".

Fixpoint split_filter (s : string) : option (string * string) :=
  match s with
  | EmptyString => None
  | String c rest =>
      if String.prefix eq_sign s
      then Some ("", String.substring 4 (String.length s - 4) s)
      else match split_filter rest with
           | Some (field, tail) => Some (String c field, tail)
           | None => None
           end
  end.

Fixpoint literal (s : string) : option string :=
  match s with
  | EmptyString => None
  | String c rest =>
      if (N_of_ascii c =? 34)%N then
        match rest with EmptyString => Some "" | _ => None end
      else if (N_of_ascii c =? 92)%N then None
      else match literal rest with
           | Some l => Some (String c l)
           | None => None
           end
  end.

Definition eq_filter (s : string) : option (gmap string JSValue -> bool) :=
  match split_filter s with
  | Some (field, tail) =>
      match literal tail with
      | Some lit => Some (field_is field lit)
      | None => None
      end
  | None => None
  end.

Definition alice : AuthRecord :=
  mkAuth "u4l1c3" {[ "displayName" := JStr "Alice";
                     "email" := JStr "alice@example.com" ]}.

Definition auth (token : string) : Result AuthRecord :=
  if String.eqb token "alice-token" then Ok alice
  else Throw (GoError "invalid token").

Definition collections (name : string) : bool :=
  String.eqb name "customer" || String.eqb name "subscription"
  || String.eqb name "product" || String.eqb name "variant".

(** The schema check: a record whose [status] is the string [rejected] is
    refused. *)
Definition check (s : Store) (r : DbRecord) : option Exn :=
  if strict_eq_str (get (rec_data r) "status") "rejected"
  then Some (GoError "validation failed: status")
  else None.

Definition host (vendor : HttpRequest -> Result JSValue) : Host :=
  mkHost "hello_world" "test-api-key" digest auth collections eq_filter
         check vendor.

Definition http_ok (code : Z) (json : JSValue) : Result JSValue :=
  Ok (JObj [("statusCode", JNum code); ("json", json)]).

(** A vendor whose three lists are [subs], [vars] and [prods], and that
    answers the customer and checkout calls. *)
Definition vendor (subs vars prods : list JSValue) (req : HttpRequest)
    : Result JSValue :=
  if String.eqb (url req) "https://api.lemonsqueezy.com/v1/subscriptions"
  then http_ok 200 (JObj [("data", JArr subs)])
  else if String.eqb (url req) "https://api.lemonsqueezy.com/v1/variants"
  then http_ok 200 (JObj [("data", JArr vars)])
  else if String.eqb (url req) "https://api.lemonsqueezy.com/v1/products"
  then http_ok 200 (JObj [("data", JArr prods)])
  else if String.eqb (url req) "https://api.lemonsqueezy.com/v1/customers"
  then http_ok 201 (JObj [("data", JObj [("id", JStr "7001")])])
  else if String.eqb (url req) "https://api.lemonsqueezy.com/v1/checkouts"
  then http_ok 201 (JObj [("data", JObj [("id", JStr "chk-1")])])
  else Throw (GoError "no such host").

(** A vendor that cannot be reached. *)
Definition unreachable (req : HttpRequest) : Result JSValue :=
  Throw (GoError "dial tcp: connection refused").

Definition empty_world : World := mkWorld [] [].

(** A signed webhook request carrying [data]. *)
Definition signed (raw : string) (data : JSValue) : Request :=
  mkRequest {[ "x_signature" := digest raw "hello_world" ]} raw data.

Definition subscription_event (name : string) (sid status : string)
    : JSValue :=
  JObj [ ("meta", JObj [("event_name", JStr name)]);
         ("data", JObj [ ("type", JStr "subscriptions");
                         ("id", JStr sid);
                         ("attributes", JObj [ ("customer_id", JNum 7001);
                                               ("status", JStr status) ]) ]) ].

End Reference.

(** * Properties *)

(** ** JavaScript values *)

Example stringify_empty_object : stringify (JObj []) = "{}".
Proof. reflexivity. Qed.

Example stringify_nested :
  stringify (JObj [ ("a", JArr [JNum 1; JUndefined; JStr "x"]);
                    ("b", JUndefined);
                    ("c", JBool false) ])
  = "{" ++ quote "a" ++ ":[1,null," ++ quote "x" ++ "],"
        ++ quote "c" ++ ":false}".
Proof. vm_compute. reflexivity. Qed.

Example filter_eq_subscription :
  filter_eq "subscription_id" (JStr "42")
  = "subscription_id = " ++ quote "42".
Proof. reflexivity. Qed.

Example or_defaults :
  js_or JUndefined (JStr "") = JStr ""
  /\ js_or (JStr "") (JStr "") = JStr ""
  /\ js_or (JNum 0) (JNum 0) = JNum 0
  /\ js_or (JStr "active") (JStr "") = JStr "active".
Proof. repeat split. Qed.

Example optional_chain_on_missing :
  opt_prop (opt_prop JUndefined "first_subscription_item") "quantity"
  = JUndefined
  /\ prop JUndefined "id"
     = Throw (TypeError "Cannot read property 'id' of undefined").
Proof. split; reflexivity. Qed.

(** ** The record store *)

Section StoreFacts.

Variables (coll : string) (keep : gmap string JSValue -> bool).

Lemma matching_snoc (s : Store) (row : Row) :
  matching coll keep (s ++ [row])
  = (matching coll keep s
     ++ (if hit coll keep row
         then [mkRecord (Some (length s)) (row_coll row) (row_data row)]
         else []))%list.
Proof.
  unfold matching. rewrite imap_app, omap_app. f_equal. cbn.
  rewrite Nat.add_0_r. destruct (hit coll keep row); reflexivity.
Qed.

Lemma elem_of_matching (s : Store) (r : DbRecord) :
  r ∈ matching coll keep s <->
  exists i row, s !! i = Some row /\ hit coll keep row = true
                /\ r = mkRecord (Some i) (row_coll row) (row_data row).
Proof.
  unfold matching. rewrite list_elem_of_omap. split.
  - intros (o & Hin & Ho). apply elem_of_lookup_imap in Hin.
    destruct Hin as (i & row & -> & Hrow). exists i, row.
    destruct (hit coll keep row); [| discriminate].
    injection Ho as <-. auto.
  - intros (i & row & Hrow & Hhit & ->).
    eexists. split.
    + apply elem_of_lookup_imap. exists i, row. split; [reflexivity | exact Hrow].
    + cbn. rewrite Hhit. reflexivity.
Qed.

(** The first record a lookup returns is a row of the store, of the
    collection asked for. *)
Lemma matching_head (s : Store) (r : DbRecord) (rest : list DbRecord) :
  matching coll keep s = r :: rest ->
  exists i row, s !! i = Some row /\ hit coll keep row = true
                /\ r = mkRecord (Some i) (row_coll row) (row_data row).
Proof.
  intros Heq. apply elem_of_matching. rewrite Heq. apply list_elem_of_here.
Qed.

Lemma length_matching_from {A} (mk : nat -> Row -> A) (s : Store) :
  length (omap (fun x => x)
            (imap (fun i row => if hit coll keep row then Some (mk i row)
                                else None) s))
  = length (filter (fun row => hit coll keep row = true) s).
Proof.
  revert mk. induction s as [| row s IH]; intros mk; [reflexivity |].
  rewrite imap_cons. cbn [omap list_omap]. rewrite filter_cons.
  destruct (hit coll keep row) eqn:Hhit.
  - rewrite decide_True by reflexivity. cbn. f_equal. apply (IH (mk ∘ S)).
  - rewrite decide_False by discriminate. apply (IH (mk ∘ S)).
Qed.

Lemma length_matching (s : Store) :
  length (matching coll keep s)
  = length (filter (fun row => hit coll keep row = true) s).
Proof. apply length_matching_from. Qed.

(** Writing back a row that is accepted exactly when the old one was leaves
    the number of matches as it is. *)
Lemma length_matching_insert (s : Store) (i : nat) (old new : Row) :
  s !! i = Some old ->
  hit coll keep new = hit coll keep old ->
  length (matching coll keep (<[i := new]> s)) = length (matching coll keep s).
Proof.
  intros Hold Hsame. rewrite !length_matching.
  rewrite insert_take_drop by (eapply lookup_lt_Some; exact Hold).
  rewrite <- (take_drop_middle s i old Hold) at 3.
  rewrite !filter_app, !filter_cons, Hsame, !length_app.
  destruct (decide (hit coll keep old = true)); reflexivity.
Qed.

End StoreFacts.

Lemma matching_ext (coll : string) (keep keep' : gmap string JSValue -> bool)
    (s : Store) :
  (forall data, keep data = keep' data) ->
  matching coll keep s = matching coll keep' s.
Proof.
  intros Hext. unfold matching. f_equal. apply imap_ext. intros i row _.
  unfold hit. rewrite Hext. reflexivity.
Qed.

Lemma lookup_load (obj : Obj) (r : DbRecord) (k : string) :
  rec_data (load obj r) !! k
  = match last_binding obj k with
    | Some v => Some v
    | None => rec_data r !! k
    end.
Proof.
  unfold load. cbn [rec_data]. generalize (rec_data r) as m.
  induction obj as [| [k' v] obj IH]; intros m; [reflexivity |].
  cbn [foldl last_binding]. rewrite IH.
  destruct (last_binding obj k); [reflexivity |]. cbn [fst snd].
  destruct (String.eqb_spec k' k) as [-> | Hne].
  - apply lookup_insert_eq.
  - apply lookup_insert_ne, Hne.
Qed.

Section Webhook.

Variable H : Host.

Lemma lemonsqueezy_invalid (c : Request) (w : World) :
  security_equal (hs256 H (req_rawBody c) (secret H)) (signature_of c) = false ->
  lemonsqueezy H c w = (Throw (BadRequestError "Invalid webhook signature."), w).
Proof.
  intros Hneq. unfold lemonsqueezy. rewrite Hneq. reflexivity.
Qed.

Lemma security_equal_false (a b : string) :
  a <> b -> security_equal a b = false.
Proof.
  intros Hne. unfold security_equal.
  destruct (String.eqb_spec a b); [contradiction | reflexivity].
Qed.

(** C1.  A request whose digest [hs256(rawBody, secret)] differs from the
    signature it carries (the [x_signature] header, or the empty string when
    the header is absent) is rejected with [BadRequestError]; the world is
    returned as it was, so no lookup, write or other host call was made. *)
Theorem webhook_rejects_bad_signature (c : Request) (w : World) :
  hs256 H (req_rawBody c) (secret H) <> signature_of c ->
  lemonsqueezy H c w
  = (Throw (BadRequestError "Invalid webhook signature."), w).
Proof.
  intros Hne. apply lemonsqueezy_invalid, security_equal_false, Hne.
Qed.

(** C10.  Without an [x_signature] header the handler compares the digest
    with the empty string, and rejects the request whenever the digest is
    not empty. *)
Theorem webhook_rejects_missing_signature (c : Request) (w : World) :
  req_headers c !! "x_signature" = None ->
  hs256 H (req_rawBody c) (secret H) <> "" ->
  signature_of c = ""
  /\ lemonsqueezy H c w
     = (Throw (BadRequestError "Invalid webhook signature."), w).
Proof.
  intros Hnone Hdigest.
  assert (Hsig : signature_of c = "").
  { unfold signature_of, header. rewrite Hnone. reflexivity. }
  split; [exact Hsig |].
  apply lemonsqueezy_invalid, security_equal_false. rewrite Hsig. exact Hdigest.
Qed.

Lemma security_equal_true (a b : string) :
  a = b -> security_equal a b = true.
Proof. intros ->. apply String.eqb_refl. Qed.

(** The handler once the signature has been accepted. *)
Lemma lemonsqueezy_valid (c : Request) :
  hs256 H (req_rawBody c) (secret H) = signature_of c ->
  lemonsqueezy H c
  = (let! name := lift (event_name (req_data c)) in
     logger_info "Received data:";;
     (if recognized_event name then
        try_catch
          (let! subscription := lift (prop (req_data c) "data") in
           upsert_subscription H subscription)
          subscription_failed
      else ret tt);;
     ret (json (JNum 200)
               (JObj [("message", JStr "Data received successfully")]))).
Proof.
  intros Heq. unfold lemonsqueezy.
  rewrite (security_equal_true _ _ Heq). reflexivity.
Qed.

(** C5.  A validly signed request whose event name is none of the three
    [case] labels is answered with 200; the store is untouched and the only
    host call made is the logger's, so nothing is read from or written to
    the database. *)
Theorem webhook_ignores_unrecognized (c : Request) (w : World)
    (name : JSValue) :
  hs256 H (req_rawBody c) (secret H) = signature_of c ->
  event_name (req_data c) = Ok name ->
  recognized_event name = false ->
  lemonsqueezy H c w
  = (Ok (json (JNum 200)
              (JObj [("message", JStr "Data received successfully")])),
     mkWorld (store w) (trace w ++ [EvLog "info" "Received data:"])).
Proof.
  intros Hsig Hname Hrec. rewrite (lemonsqueezy_valid c Hsig).
  unfold bind, lift. rewrite Hname. cbn. rewrite Hrec. reflexivity.
Qed.

End Webhook.

Lemma webhook_rejects_bad_signature_witness :
  let c := mkRequest {[ "x_signature" := "deadbeef" ]} "{}" (JObj []) in
  lemonsqueezy (Reference.host Reference.unreachable) c Reference.empty_world
  = (Throw (BadRequestError "Invalid webhook signature."),
     Reference.empty_world).
Proof.
  intros c. apply webhook_rejects_bad_signature. vm_compute. discriminate.
Defined.

Lemma webhook_rejects_missing_signature_witness :
  let c := mkRequest ∅ "{}" (JObj []) in
  signature_of c = ""
  /\ lemonsqueezy (Reference.host Reference.unreachable) c
       Reference.empty_world
     = (Throw (BadRequestError "Invalid webhook signature."),
        Reference.empty_world).
Proof.
  intros c. apply webhook_rejects_missing_signature.
  - reflexivity.
  - vm_compute. discriminate.
Defined.

Lemma webhook_ignores_unrecognized_witness :
  let data :=
    JObj [("meta", JObj [("event_name", JStr "subscription_payment_success")])]
  in
  let c := Reference.signed "{}" data in
  lemonsqueezy (Reference.host Reference.unreachable) c Reference.empty_world
  = (Ok (json (JNum 200)
              (JObj [("message", JStr "Data received successfully")])),
     mkWorld [] [EvLog "info" "Received data:"]).
Proof.
  intros data c.
  apply (webhook_ignores_unrecognized (Reference.host Reference.unreachable)
           c Reference.empty_world (JStr "subscription_payment_success")).
  - vm_compute. reflexivity.
  - reflexivity.
  - reflexivity.
Defined.

(** ** The subscription upsert *)

Section Upsert.

Variable H : Host.

(** A successful find-then-update-or-create wrote exactly one record: the
    loaded first match, or else the loaded new record. *)
Lemma update_or_create_ok (coll : string) (existing : list DbRecord)
    (data : Obj) (w w' : World) :
  update_or_create H coll existing data w = (Ok tt, w') ->
  let r := load data (match existing with
                      | r0 :: _ => r0
                      | [] => new_Record coll
                      end) in
  store w' = written r (store w) /\ last (trace w') = Some (EvSave r).
Proof.
  unfold update_or_create, findCollectionByNameOrId, saveRecord, written.
  unfold bind, emit, ret, throw.
  destruct existing as [| r0 rest]; cbn.
  - destruct (has_collection H coll); cbn; [| discriminate].
    destruct (save_check H _ _); cbn; [discriminate |].
    intros [= <-]. cbn. split; [reflexivity | apply last_snoc].
  - destruct (save_check H _ _); cbn; [discriminate |].
    destruct (rec_id r0); intros [= <-]; cbn;
      (split; [reflexivity | apply last_snoc]).
Qed.

(** The same for the subscription block: what was looked up, what was
    written. *)
Lemma upsert_subscription_ok (subscription sid : JSValue) (w w' : World) :
  prop subscription "id" = Ok sid ->
  upsert_subscription H subscription w = (Ok tt, w') ->
  exists existing,
    find_in H "subscription" (filter_eq "subscription_id" sid) (store w)
    = Ok existing
    /\ let r := load (subscriptionData subscription sid)
                     (match existing with
                      | r0 :: _ => r0
                      | [] => new_Record "subscription"
                      end) in
       store w' = written r (store w) /\ last (trace w') = Some (EvSave r).
Proof.
  intros Hid. unfold upsert_subscription, findRecordsByFilter.
  unfold bind at 1. unfold lift. rewrite Hid.
  unfold bind at 1. unfold bind at 1. unfold emit. cbn [store trace].
  destruct (find_in H _ _ (store w)) as [existing | e]; [| discriminate].
  intros Hrun. exists existing. split; [reflexivity |].
  apply update_or_create_ok in Hrun. exact Hrun.
Qed.

Lemma written_new (obj : Obj) (coll : string) (s : Store) :
  written (load obj (new_Record coll)) s
  = (s ++ [mkRow coll (rec_data (load obj (new_Record coll)))])%list.
Proof. reflexivity. Qed.

Lemma written_found (obj : Obj) (i : nat) (coll : string)
    (data : gmap string JSValue) (s : Store) :
  written (load obj (mkRecord (Some i) coll data)) s
  = <[i := mkRow coll (rec_data (load obj (mkRecord (Some i) coll data)))]> s.
Proof. reflexivity. Qed.


Lemma field_is_true (field lit : string) (data : gmap string JSValue) :
  field_is field lit data = true -> data !! field = Some (JStr lit).
Proof.
  unfold field_is. destruct (data !! field) as [[]|]; try discriminate.
  intros Heq. apply String.eqb_eq in Heq. subst. reflexivity.
Qed.


End Upsert.

Section WebhookUpsert.

Variable H : Host.



End WebhookUpsert.


(** ** What a subscription upsert writes *)

Section Overwrite.

Variable H : Host.

Lemma find_in_head (coll filter : string) (s : Store) (r0 : DbRecord)
    (rest : list DbRecord) :
  find_in H coll filter s = Ok (r0 :: rest) ->
  exists i row, s !! i = Some row /\ row_coll row = coll
                /\ r0 = mkRecord (Some i) (row_coll row) (row_data row).
Proof.
  unfold find_in. destruct (has_collection H coll); [| discriminate].
  destruct (eval_filter H filter) as [keep |]; [| discriminate].
  intros [= Hm]. destruct (matching_head _ _ _ _ _ Hm)
    as (i & row & Hrow & Hhit & ->).
  exists i, row. repeat split; [exact Hrow |].
  unfold hit in Hhit. apply andb_prop in Hhit as [Hcoll _].
  apply String.eqb_eq, Hcoll.
Qed.




Lemma process_subscription_ok (subscription : JSValue) (w w' : World) :
  process_subscription H subscription w = (Ok tt, w') ->
  upsert_subscription H subscription w = (Ok tt, w').
Proof.
  unfold process_subscription, try_catch.
  destruct (upsert_subscription H subscription w) as [[[] | e] w1].
  - intros [= <-]. reflexivity.
  - cbn. discriminate.
Qed.



End Overwrite.

(** ** Checkout sessions and customer records *)

Section Checkout.

Variable H : Host.

Lemma customer_calls_snoc (t : list Event) (e : Event) :
  customer_calls (t ++ [e])
  = (customer_calls t + if is_customer_call e then 1 else 0)%nat.
Proof.
  unfold customer_calls. rewrite filter_app, length_app. f_equal.
  rewrite filter_cons. destruct (is_customer_call e); reflexivity.
Qed.

(** The checkout call never throws: the [try] turns every error into the
    generic 400 response.  It writes nothing and is not a customer call. *)
Lemma send_checkout_total (body : JSValue) (w : World) :
  exists resp w',
    send_checkout H body w = (Ok resp, w')
    /\ store w' = store w
    /\ customer_calls (trace w') = customer_calls (trace w).
Proof.
  unfold send_checkout, try_catch, http_send, logger_error.
  unfold bind, lift, emit, ret. cbn.
  destruct (http_response H (checkout_request H body)) as [response | e].
  - destruct (prop response "json") as [responseData | e];
      [destruct (prop response "status") as [st | e] |];
      eexists _, _; (split; [reflexivity |]); cbn [store trace];
      (split; [reflexivity |]); rewrite !customer_calls_snoc; cbn; lia.
  - eexists _, _. split; [reflexivity |]. cbn [store trace].
    split; [reflexivity |]. rewrite !customer_calls_snoc. cbn. lia.
Qed.

(** The handler once the caller is authenticated. *)
Lemma create_checkout_session_auth (c : Request) (u : AuthRecord)
    (w : World) :
  auth_by_token H (token_of c) = Ok u ->
  create_checkout_session H c w
  = checkout_for H c u (mkWorld (store w) (trace w ++ [EvAuth (token_of c)])).
Proof.
  intros Hauth. unfold create_checkout_session, findAuthRecordByToken.
  unfold bind at 1. unfold try_catch. unfold bind at 1. unfold bind at 1.
  unfold emit, lift. rewrite Hauth. reflexivity.
Qed.

(** [checkout_for] when the caller already has a customer record. *)
Lemma checkout_for_existing (c : Request) (u : AuthRecord) (w : World)
    (r : DbRecord) (rest : list DbRecord) :
  find_in H "customer" (customer_filter u) (store w) = Ok (r :: rest) ->
  store (snd (checkout_for H c u w)) = store w
  /\ customer_calls (trace (snd (checkout_for H c u w)))
     = customer_calls (trace w).
Proof.
  intros Hfind.
  destruct (checkout_for H c u w) as [res w'] eqn:Hrun. revert Hrun.
  unfold checkout_for, findRecordsByFilter.
  unfold bind at 1. unfold bind at 1. unfold emit. cbn [store trace].
  rewrite Hfind. unfold bind at 1. unfold ret at 1.
  unfold bind at 1. unfold lift.
  destruct (prop (req_data c) "variant_id") as [variant_id | e].
  - destruct (send_checkout_total (requestBody u variant_id)
                (mkWorld (store w)
                   (trace w ++ [EvFind "customer" (customer_filter u)])))
      as (resp & w1 & -> & Hstore & Hcalls).
    intros [= _ <-]. cbn [snd]. cbn [store trace] in Hstore, Hcalls.
    rewrite Hstore, Hcalls, customer_calls_snoc. cbn.
    split; [reflexivity | lia].
  - intros [= _ <-]. cbn [snd store trace]. rewrite customer_calls_snoc. cbn.
    split; [reflexivity | lia].
Qed.

(** [create_customer], when it returns, has made one customer call and
    appended one customer record. *)
Lemma create_customer_ok (u : AuthRecord) (w w' : World) (cid : JSValue) :
  create_customer H u w = (Ok cid, w') ->
  exists res,
    http_response H (customer_request H u) = Ok res
    /\ response_data_id res = Ok cid
    /\ store w'
       = (store w
          ++ [mkRow "customer"
                (<["user_id" := JStr (auth_id u)]>
                   {["lemonsqueezy_customer_id" := cid]})])%list
    /\ customer_calls (trace w') = S (customer_calls (trace w)).
Proof.
  unfold create_customer, http_send, findCollectionByNameOrId, saveRecord.
  unfold bind, lift, emit, ret, throw. cbn.
  destruct (http_response H (customer_request H u)) as [res | e];
    [| discriminate].
  destruct (response_data_id res) as [cid' | e] eqn:Hcid; [| discriminate].
  destruct (has_collection H "customer"); cbn; [| discriminate].
  destruct (save_check H _ _); cbn; [discriminate |].
  intros [= <- <-]. exists res. cbn [store trace].
  split; [reflexivity |]. split; [exact Hcid |]. split; [reflexivity |].
  rewrite !customer_calls_snoc. cbn. lia.
Qed.


End Checkout.


Section CheckoutErrors.

Variable H : Host.

(** A transport error of the customer-creation call is not caught: it
    leaves the handler as the exception it is. *)
Lemma checkout_customer_error (c : Request) (u : AuthRecord) (w : World)
    (e : Exn) :
  auth_by_token H (token_of c) = Ok u ->
  find_in H "customer" (customer_filter u) (store w) = Ok [] ->
  http_response H (customer_request H u) = Throw e ->
  create_checkout_session H c w
  = (Throw e,
     mkWorld (store w)
       (trace w ++ [ EvAuth (token_of c);
                     EvFind "customer" (customer_filter u);
                     EvHttp (customer_request H u) ])).
Proof.
  intros Hauth Hfind Hsend.
  rewrite (create_checkout_session_auth H c u w Hauth).
  unfold checkout_for, findRecordsByFilter, create_customer, http_send.
  unfold bind, emit, lift. cbn [store trace]. rewrite Hfind, Hsend.
  cbn [store trace]. rewrite <- !app_assoc. reflexivity.
Qed.

(** A transport error of the checkout call is caught and answered with the
    generic 400 response. *)
Lemma checkout_call_error (body : JSValue) (w : World) (e : Exn) :
  http_response H (checkout_request H body) = Throw e ->
  fst (send_checkout H body w)
  = Ok (json (JNum 400) (JObj [("message", JStr "Failed to create checkout")])).
Proof.
  intros Hsend. unfold send_checkout, try_catch, http_send.
  unfold bind, emit, lift. rewrite Hsend. reflexivity.
Qed.

End CheckoutErrors.

(** C4.  With an unreachable vendor, a caller who has no customer record gets
    the transport error itself out of the handler (the customer-creation call
    is outside every [try]), whereas a caller who has one gets the generic
    400 response from the [catch] around the checkout call. *)
Theorem checkout_vendor_error_escapes :
  let h := Reference.host Reference.unreachable in
  let c := mkRequest {[ "authorization" := "alice-token" ]} ""
             (JObj [("variant_id", JStr "9")]) in
  let known := mkRow "customer" {[ "user_id" := JStr "u4l1c3";
                                   "lemonsqueezy_customer_id" := JStr "7001" ]} in
  fst (create_checkout_session h c (mkWorld [] []))
  = Throw (GoError "dial tcp: connection refused")
  /\ fst (create_checkout_session h c (mkWorld [known] []))
     = Ok (json (JNum 400)
                (JObj [("message", JStr "Failed to create checkout")])).
Proof.
  intros h c known. split.
  - rewrite (checkout_customer_error h c Reference.alice (mkWorld [] [])
               (GoError "dial tcp: connection refused"));
      reflexivity.
  - vm_compute. reflexivity.
Qed.

(** ** The sync job *)

Section Sync.

Variable H : Host.

(** The loop stops at the first item whose callback throws. *)
Lemma forEach_abort {A} (f : A -> M unit) (pre post : list A) (x : A)
    (w w1 w2 : World) (e : Exn) :
  forEach f pre w = (Ok tt, w1) ->
  f x w1 = (Throw e, w2) ->
  forEach f (pre ++ x :: post) w = (Throw e, w2).
Proof.
  revert w. induction pre as [| y pre IH]; intros w Hpre Hx.
  - cbn in Hpre. injection Hpre as <-. cbn. unfold bind. rewrite Hx.
    reflexivity.
  - cbn in Hpre |- *. unfold bind in Hpre |- *.
    destruct (f y w) as [[[] | e'] w'']; [| discriminate].
    apply IH; assumption.
Qed.

Lemma sync_stage_run (resource : string) (callback : JSValue -> M unit)
    (w : World) :
  sync_stage H resource callback w
  = match vendor_list H resource with
    | Ok items => js_forEach items callback (fetched H resource w)
    | Throw e => (Throw e, fetched H resource w)
    end.
Proof.
  unfold sync_stage, http_send, vendor_list, fetched.
  unfold bind, emit, lift.
  destruct (http_response H (list_request H resource)) as [res | e];
    [| reflexivity].
  destruct (prop res "json") as [data | e]; [| reflexivity].
  destruct (prop data "data"); reflexivity.
Qed.

(** A stage whose list holds an item on which the callback throws. *)
Lemma sync_stage_abort (resource : string) (callback : JSValue -> M unit)
    (pre post : list JSValue) (x : JSValue) (w w1 w2 : World) (e : Exn) :
  vendor_list H resource = Ok (JArr (pre ++ x :: post)) ->
  forEach callback pre (fetched H resource w) = (Ok tt, w1) ->
  callback x w1 = (Throw e, w2) ->
  sync_stage H resource callback w = (Throw e, w2).
Proof.
  intros Hlist Hpre Hx. rewrite sync_stage_run, Hlist.
  apply (forEach_abort callback pre post x _ w1 w2 e Hpre Hx).
Qed.

(** The outer [catch]: an exception of the [try] block becomes the 400
    response that carries it. *)
Lemma sync_failed (c : Request) (w w2 : World) (e : Exn) :
  sync_all H w = (Throw e, w2) ->
  manual_lemonsqueezy_synchronization H c w
  = (Ok (json (JNum 400) (JObj [("message", JErr e)])),
     mkWorld (store w2)
       (trace w2 ++ [EvLog "error" "Error during synchronization:"])).
Proof.
  intros Hrun. unfold manual_lemonsqueezy_synchronization, try_catch.
  rewrite Hrun. reflexivity.
Qed.

(** C6.  If, in any of the three stages, the callback throws on an item of
    the fetched list (the items before it having been processed), the job
    ends in the world that throw left, with only the error log entry added:
    no later item is processed, no later stage runs, and the response is the
    400 that carries the error. *)
Theorem sync_item_failure_aborts (c : Request) (st : Stage)
    (pre post : list JSValue) (x : JSValue) (w w0 w1 w2 : World) (e : Exn) :
  stages_before H st w = (Ok tt, w0) ->
  vendor_list H (resource_of st) = Ok (JArr (pre ++ x :: post)) ->
  forEach (callback_of H st) pre (fetched H (resource_of st) w0)
  = (Ok tt, w1) ->
  callback_of H st x w1 = (Throw e, w2) ->
  manual_lemonsqueezy_synchronization H c w
  = (Ok (json (JNum 400) (JObj [("message", JErr e)])),
     mkWorld (store w2)
       (trace w2 ++ [EvLog "error" "Error during synchronization:"])).
Proof.
  intros Hbefore Hlist Hpre Hx. apply sync_failed.
  pose proof (sync_stage_abort (resource_of st) (callback_of H st)
                pre post x w0 w1 w2 e Hlist Hpre Hx) as Hstage.
  unfold sync_all.
  destruct st; cbn [resource_of callback_of stages_before] in Hbefore, Hstage.
  - injection Hbefore as <-. unfold bind at 1. rewrite Hstage. reflexivity.
  - unfold bind at 1. rewrite Hbefore. unfold bind at 1. rewrite Hstage.
    reflexivity.
  - unfold bind at 1 in Hbefore. unfold bind at 1.
    destruct (sync_stage H "subscriptions" _ w) as [[[] | e'] w'];
      [| discriminate].
    unfold bind at 1. rewrite Hbefore. unfold bind at 1. rewrite Hstage.
    reflexivity.
Qed.

Lemma sync_stage_empty (resource : string) (callback : JSValue -> M unit)
    (w : World) :
  vendor_list H resource = Ok (JArr []) ->
  sync_stage H resource callback w = (Ok tt, fetched H resource w).
Proof. intros Hlist. rewrite sync_stage_run, Hlist. reflexivity. Qed.

Lemma saves_snoc (t : list Event) (e : Event) :
  saves (t ++ [e]) = (saves t + if is_save e then 1 else 0)%nat.
Proof.
  unfold saves. rewrite filter_app, length_app. f_equal.
  rewrite filter_cons. destruct (is_save e); reflexivity.
Qed.

(** C7.  When the three vendor lists are empty, the job sends its three
    requests, logs, and answers 200 with [success]; the store is the one it
    started from and no [saveRecord] call was made. *)
Theorem sync_empty_lists (c : Request) (w : World) :
  vendor_list H "subscriptions" = Ok (JArr []) ->
  vendor_list H "variants" = Ok (JArr []) ->
  vendor_list H "products" = Ok (JArr []) ->
  let w' := snd (manual_lemonsqueezy_synchronization H c w) in
  manual_lemonsqueezy_synchronization H c w
  = (Ok (json (JNum 200) (JObj [("message", JStr "success")])),
     mkWorld (store w)
       (trace w ++ [ EvHttp (list_request H "subscriptions");
                     EvHttp (list_request H "variants");
                     EvHttp (list_request H "products");
                     EvLog "info" "Ran sync" ]))
  /\ store w' = store w
  /\ saves (trace w') = saves (trace w).
Proof.
  intros Hsubs Hvars Hprods w'.
  assert (Hrun : manual_lemonsqueezy_synchronization H c w
                 = (Ok (json (JNum 200) (JObj [("message", JStr "success")])),
                    mkWorld (store w)
                      (trace w ++ [ EvHttp (list_request H "subscriptions");
                                    EvHttp (list_request H "variants");
                                    EvHttp (list_request H "products");
                                    EvLog "info" "Ran sync" ]))).
  { unfold manual_lemonsqueezy_synchronization, try_catch, sync_all.
    unfold bind at 1. rewrite (sync_stage_empty _ _ _ Hsubs).
    unfold bind at 1. rewrite (sync_stage_empty _ _ _ Hvars).
    unfold bind at 1. rewrite (sync_stage_empty _ _ _ Hprods).
    unfold fetched. cbn. rewrite <- !app_assoc. reflexivity. }
  subst w'. rewrite Hrun. cbn [snd store trace].
  split; [reflexivity |]. split; [reflexivity |].
  change (trace w ++ _)%list
    with (trace w ++ [EvHttp (list_request H "subscriptions")]
          ++ [EvHttp (list_request H "variants")]
          ++ [EvHttp (list_request H "products")]
          ++ [EvLog "info" "Ran sync"])%list.
  rewrite !app_assoc, !saves_snoc. cbn. lia.
Qed.

End Sync.

Lemma sync_item_failure_aborts_witness :
  let good := JObj [("id", JStr "1");
                    ("attributes", JObj [("status", JStr "active")])] in
  let bad := JObj [("id", JStr "2");
                   ("attributes", JObj [("status", JStr "rejected")])] in
  let later := JObj [("id", JStr "3");
                     ("attributes", JObj [("status", JStr "active")])] in
  let h := Reference.host (Reference.vendor [good; bad; later] [] []) in
  let c := mkRequest ∅ "" JNull in
  let w := Reference.empty_world in
  let w1 := snd (forEach (process_subscription h) [good]
                   (fetched h "subscriptions" w)) in
  let e := BadRequestError
             "Failed to process subscription: validation failed: status" in
  let w2 := snd (process_subscription h bad w1) in
  manual_lemonsqueezy_synchronization h c w
  = (Ok (json (JNum 400) (JObj [("message", JErr e)])),
     mkWorld (store w2)
       (trace w2 ++ [EvLog "error" "Error during synchronization:"])).
Proof.
  intros good bad later h c w w1 e w2.
  apply (sync_item_failure_aborts h c Subscriptions [good] [later] bad
           w w w1 w2 e).
  - reflexivity.
  - reflexivity.
  - vm_compute. reflexivity.
  - vm_compute. reflexivity.
Defined.

Lemma sync_empty_lists_witness :
  let h := Reference.host (Reference.vendor [] [] []) in
  let c := mkRequest ∅ "" JNull in
  let w := Reference.empty_world in
  let w' := snd (manual_lemonsqueezy_synchronization h c w) in
  manual_lemonsqueezy_synchronization h c w
  = (Ok (json (JNum 200) (JObj [("message", JStr "success")])),
     mkWorld (store w)
       (trace w ++ [ EvHttp (list_request h "subscriptions");
                     EvHttp (list_request h "variants");
                     EvHttp (list_request h "products");
                     EvLog "info" "Ran sync" ]))
  /\ store w' = store w
  /\ saves (trace w') = saves (trace w).
Proof.
  intros h c w. apply (sync_empty_lists h c w); reflexivity.
Defined.

(** ** Customer records are written once and left alone *)

Section Preservation.

Context {X : Type} (f : Store -> X).

Lemma preserves_ret {A} (a : A) : preserves f (ret a).
Proof. intros w. reflexivity. Qed.

Lemma preserves_throw {A} (e : Exn) : preserves f (@throw A e).
Proof. intros w. reflexivity. Qed.

Lemma preserves_lift {A} (r : Result A) : preserves f (lift r).
Proof. intros w. reflexivity. Qed.

Lemma preserves_emit (e : Event) : preserves f (emit e).
Proof. intros w. reflexivity. Qed.

Lemma preserves_bind {A B} (m : M A) (k : A -> M B) :
  preserves f m -> (forall a, preserves f (k a)) -> preserves f (bind m k).
Proof.
  intros Hm Hk w. unfold bind. specialize (Hm w).
  destruct (m w) as [[a | e] w1]; cbn [snd] in *.
  - rewrite (Hk a w1). exact Hm.
  - exact Hm.
Qed.

Lemma preserves_try_catch {A} (m : M A) (h : Exn -> M A) :
  preserves f m -> (forall e, preserves f (h e)) ->
  preserves f (try_catch m h).
Proof.
  intros Hm Hh w. unfold try_catch. specialize (Hm w).
  destruct (m w) as [[a | e] w1]; cbn [snd] in *.
  - exact Hm.
  - rewrite (Hh e w1). exact Hm.
Qed.

Lemma preserves_forEach {A} (g : A -> M unit) (items : list A) :
  (forall x, preserves f (g x)) -> preserves f (forEach g items).
Proof.
  intros Hg. induction items as [| x items IH]; cbn [forEach].
  - apply preserves_ret.
  - apply preserves_bind; [apply Hg | intros _; exact IH].
Qed.

Lemma preserves_js_forEach (v : JSValue) (g : JSValue -> M unit) :
  (forall x, preserves f (g x)) -> preserves f (js_forEach v g).
Proof.
  intros Hg. destruct v; cbn [js_forEach];
    try apply preserves_throw. apply preserves_forEach, Hg.
Qed.

End Preservation.

Create HintDb frame.
#[local] Hint Resolve preserves_ret preserves_throw preserves_lift
  preserves_emit : frame.

Section Customers.

Variable H : Host.

(** Host calls that do not write. *)
Lemma preserves_find {X} (f : Store -> X) (coll filter : string) :
  preserves f (findRecordsByFilter H coll filter).
Proof. intros w. reflexivity. Qed.

Lemma preserves_http {X} (f : Store -> X) (req : HttpRequest) :
  preserves f (http_send H req).
Proof. intros w. reflexivity. Qed.

Lemma preserves_logger {X} (f : Store -> X) (msg : string) :
  preserves f (logger_error msg) /\ preserves f (logger_info msg).
Proof. split; intros w; reflexivity. Qed.

Lemma customers_snoc (s : Store) (row : Row) :
  row_coll row <> "customer" -> customers (s ++ [row]) = customers s.
Proof.
  intros Hne. unfold customers. rewrite filter_app, filter_cons.
  rewrite decide_False by exact Hne. apply app_nil_r.
Qed.

Lemma customers_insert (s : Store) (i : nat) (old new : Row) :
  s !! i = Some old ->
  row_coll old <> "customer" -> row_coll new <> "customer" ->
  customers (<[i := new]> s) = customers s.
Proof.
  intros Hold Hne Hne'. unfold customers.
  rewrite insert_take_drop by (eapply lookup_lt_Some; exact Hold).
  rewrite <- (take_drop_middle s i old Hold) at 3.
  rewrite !filter_app, !filter_cons.
  rewrite !decide_False by assumption. reflexivity.
Qed.

(** An upsert into another collection leaves the customer records alone. *)
Lemma update_or_create_customers (coll filter : string)
    (existing : list DbRecord) (data : Obj) (w : World) :
  coll <> "customer" ->
  find_in H coll filter (store w) = Ok existing ->
  customers (store (snd (update_or_create H coll existing data w)))
  = customers (store w).
Proof.
  intros Hcoll Hfind.
  unfold update_or_create, findCollectionByNameOrId, saveRecord.
  unfold bind, emit, ret, throw.
  destruct existing as [| r0 rest]; cbn [store trace].
  - destruct (has_collection H coll); [| reflexivity].
    destruct (save_check H _ _); [reflexivity |].
    cbn. apply customers_snoc. exact Hcoll.
  - destruct (find_in_head H _ _ _ _ _ Hfind) as (i & row & Hrow & <- & ->).
    destruct (save_check H _ _); [reflexivity |].
    cbn. apply (customers_insert _ _ row); assumption.
Qed.

(** The same for a lookup followed by steps that only read, then the
    update-or-create. *)
Lemma upsert_customers (coll filter : string)
    (k : list DbRecord -> M unit) :
  (forall existing w,
      find_in H coll filter (store w) = Ok existing ->
      customers (store (snd (k existing w))) = customers (store w)) ->
  preserves customers (let! existing := findRecordsByFilter H coll filter in
                       k existing).
Proof.
  intros Hk w. unfold findRecordsByFilter, bind, emit. cbn [store trace].
  destruct (find_in H coll filter (store w)) as [existing | e] eqn:Hfind;
    [| reflexivity].
  apply (Hk existing (mkWorld (store w) _)). exact Hfind.
Qed.

Lemma process_subscription_customers (subscription : JSValue) :
  preserves customers (process_subscription H subscription).
Proof.
  unfold process_subscription, upsert_subscription, subscription_failed.
  apply preserves_try_catch.
  - apply preserves_bind; [auto with frame |]. intros sid.
    apply upsert_customers. intros existing w Hfind.
    eapply update_or_create_customers; [discriminate | exact Hfind].
  - intros e. apply preserves_bind; [apply preserves_logger |].
    auto with frame.
Qed.

Lemma process_variant_customers (variant : JSValue) :
  preserves customers (process_variant H variant).
Proof.
  unfold process_variant. apply preserves_try_catch.
  - apply preserves_bind; [auto with frame |]. intros vid.
    apply upsert_customers. intros existing w Hfind.
    unfold bind, lift.
    destruct (prop variant "attributes") as [attributes | e];
      [| reflexivity].
    destruct (prop attributes "product_id"); [| reflexivity].
    eapply update_or_create_customers; [discriminate | exact Hfind].
  - intros e. apply preserves_bind; [apply preserves_logger |].
    auto with frame.
Qed.

Lemma process_product_customers (product : JSValue) :
  preserves customers (process_product H product).
Proof.
  unfold process_product. apply preserves_try_catch.
  - apply preserves_bind; [auto with frame |]. intros pid.
    apply upsert_customers. intros existing w Hfind.
    unfold bind, lift.
    destruct (prop product "attributes") as [attributes | e];
      [| reflexivity].
    destruct (prop attributes "status"); [| reflexivity].
    eapply update_or_create_customers; [discriminate | exact Hfind].
  - intros e. apply preserves_bind; [apply preserves_logger |].
    auto with frame.
Qed.

Lemma sync_stage_customers (resource : string)
    (callback : JSValue -> M unit) :
  (forall x, preserves customers (callback x)) ->
  preserves customers (sync_stage H resource callback).
Proof.
  intros Hcb. unfold sync_stage.
  apply preserves_bind; [apply preserves_http |]. intros res.
  apply preserves_bind; [auto with frame |]. intros data.
  apply preserves_bind; [auto with frame |]. intros items.
  apply preserves_js_forEach, Hcb.
Qed.

Lemma manual_synchronization_customers (c : Request) :
  preserves customers (manual_lemonsqueezy_synchronization H c).
Proof.
  unfold manual_lemonsqueezy_synchronization, sync_all.
  apply preserves_try_catch.
  - apply preserves_bind;
      [apply sync_stage_customers, process_subscription_customers |].
    intros _. apply preserves_bind;
      [apply sync_stage_customers, process_variant_customers |].
    intros _. apply preserves_bind;
      [apply sync_stage_customers, process_product_customers |].
    intros _. apply preserves_bind; [apply preserves_logger |].
    auto with frame.
  - intros e. apply preserves_bind; [apply preserves_logger |].
    auto with frame.
Qed.

Lemma lemonsqueezy_customers (c : Request) :
  preserves customers (lemonsqueezy H c).
Proof.
  unfold lemonsqueezy.
  destruct (negb _); [auto with frame |].
  apply preserves_bind; [auto with frame |]. intros name.
  apply preserves_bind; [apply preserves_logger |]. intros _.
  apply preserves_bind; [| auto with frame].
  destruct (recognized_event name); [| auto with frame].
  apply preserves_try_catch.
  - intros w. unfold bind at 1. unfold lift.
    destruct (prop (req_data c) "data") as [subscription | e];
      [| reflexivity].
    unfold upsert_subscription.
    apply (preserves_bind customers); [auto with frame |]. intros sid.
    apply upsert_customers. intros existing w' Hfind.
    eapply update_or_create_customers; [discriminate | exact Hfind].
  - intros e. unfold subscription_failed.
    apply preserves_bind; [apply preserves_logger |]. auto with frame.
Qed.

(** The portal handler never writes. *)
Lemma create_portal_link_store (c : Request) :
  preserves (fun s => s) (create_portal_link H c).
Proof.
  unfold create_portal_link, findAuthRecordByToken, findFirstRecordByFilter.
  apply preserves_try_catch.
  - apply preserves_bind.
    { apply preserves_bind; auto with frame. }
    intros userRecord. apply preserves_bind.
    { apply preserves_bind; [apply preserves_find |].
      intros [| r rest]; auto with frame. }
    intros [customerRecord |]; [| auto with frame].
    apply preserves_bind; [apply preserves_http |]. intros response.
    repeat (apply preserves_bind; [auto with frame |]; intros ?).
    auto with frame.
  - intros e. apply preserves_bind; [apply preserves_logger |].
    auto with frame.
Qed.

End Customers.

Section CustomerCreation.

Variable H : Host.

Lemma customers_snoc_customer (s : Store) (data : gmap string JSValue) :
  customers (s ++ [mkRow "customer" data])
  = (customers s ++ [mkRow "customer" data])%list.
Proof.
  unfold customers. rewrite filter_app, filter_cons.
  rewrite decide_True by reflexivity. reflexivity.
Qed.

(** A customer creation that throws has written nothing. *)
Lemma create_customer_throw (u : AuthRecord) (w w' : World) (e : Exn) :
  create_customer H u w = (Throw e, w') -> store w' = store w.
Proof.
  unfold create_customer, http_send, findCollectionByNameOrId, saveRecord.
  unfold bind, lift, emit, ret, throw. cbn [store trace].
  destruct (http_response H (customer_request H u)) as [res | e1];
    [| intros [= _ <-]; reflexivity].
  destruct (response_data_id res) as [cid | e1];
    [| intros [= _ <-]; reflexivity].
  destruct (has_collection H "customer");
    [| intros [= _ <-]; reflexivity].
  cbn [store trace].
  destruct (save_check H _ _); [intros [= _ <-]; reflexivity | discriminate].
Qed.

(** What the steps after the customer lookup do to the store. *)
Lemma checkout_tail_store (c : Request) (u : AuthRecord) (w : World) :
  store (snd ((let! variant_id := lift (prop (req_data c) "variant_id") in
               send_checkout H (requestBody u variant_id)) w))
  = store w.
Proof.
  unfold bind, lift.
  destruct (prop (req_data c) "variant_id") as [variant_id | e];
    [| reflexivity].
  destruct (send_checkout_total H (requestBody u variant_id) w)
    as (resp & w' & -> & Hstore & _).
  exact Hstore.
Qed.

Lemma checkout_for_customers (c : Request) (u : AuthRecord) (w : World) :
  customers (store (snd (checkout_for H c u w))) = customers (store w)
  \/ exists cid,
       find_in H "customer" (customer_filter u) (store w) = Ok []
       /\ customers (store (snd (checkout_for H c u w)))
          = (customers (store w)
             ++ [mkRow "customer"
                   (<["user_id" := JStr (auth_id u)]>
                      {["lemonsqueezy_customer_id" := cid]})])%list.
Proof.
  remember (checkout_for H c u w) as run eqn:Hrun. revert Hrun.
  unfold checkout_for, findRecordsByFilter.
  unfold bind at 1. unfold bind at 1. unfold emit. cbn [store trace].
  destruct (find_in H "customer" (customer_filter u) (store w))
    as [[| r rest] | e] eqn:Hfind.
  - unfold bind at 1.
    destruct (create_customer H u _) as [[cid | e] w1] eqn:Hcreate.
    + intros ->. right. exists cid. split; [reflexivity |].
      rewrite checkout_tail_store.
      apply create_customer_ok in Hcreate.
      destruct Hcreate as (_ & _ & _ & -> & _). cbn [store].
      apply customers_snoc_customer.
    + intros ->. left. apply create_customer_throw in Hcreate.
      cbn [snd]. rewrite Hcreate. reflexivity.
  - unfold bind at 1. unfold ret at 1. intros ->. left.
    rewrite checkout_tail_store. reflexivity.
  - intros ->. left. reflexivity.
Qed.

(** C8.  No handler changes a customer record: after the webhook, the
    portal and the sync handlers the customer records are the ones there
    were, in the same order (the portal handler leaves the whole store as it
    is).  The checkout handler either leaves them as they are too, or
    appends a single record, and does so only for an authenticated caller
    for whom the lookup by user id found no record. *)
Theorem customers_written_once (c : Request) (w : World) :
  customers (store (snd (lemonsqueezy H c w))) = customers (store w)
  /\ store (snd (create_portal_link H c w)) = store w
  /\ customers (store (snd (manual_lemonsqueezy_synchronization H c w)))
     = customers (store w)
  /\ (customers (store (snd (create_checkout_session H c w)))
      = customers (store w)
      \/ exists u cid,
           auth_by_token H (token_of c) = Ok u
           /\ find_in H "customer" (customer_filter u) (store w) = Ok []
           /\ customers (store (snd (create_checkout_session H c w)))
              = (customers (store w)
                 ++ [mkRow "customer"
                       (<["user_id" := JStr (auth_id u)]>
                          {["lemonsqueezy_customer_id" := cid]})])%list).
Proof.
  split; [apply lemonsqueezy_customers |].
  split; [apply (create_portal_link_store H c w) |].
  split; [apply manual_synchronization_customers |].
  destruct (auth_by_token H (token_of c)) as [u | e] eqn:Hauth.
  - rewrite (create_checkout_session_auth H c u w Hauth).
    destruct (checkout_for_customers c u
                (mkWorld (store w) (trace w ++ [EvAuth (token_of c)])))
      as [Hsame | (cid & Hfind & Hnew)].
    + left. exact Hsame.
    + right. exists u, cid. split; [reflexivity |].
      split; [exact Hfind | exact Hnew].
  - left. unfold create_checkout_session, findAuthRecordByToken.
    unfold bind, try_catch, emit, lift. rewrite Hauth. reflexivity.
Qed.

End CustomerCreation.

(** Once the record is there, the next lookup for the same caller finds it,
    so the next checkout takes the branch that creates nothing. *)
Lemma customer_found_after_creation (H : Host) (u : AuthRecord)
    (cid : JSValue) (s : Store) :
  has_collection H "customer" = true ->
  equality_filter H "user_id" (auth_id u) ->
  exists r rest,
    find_in H "customer" (customer_filter u)
      (s ++ [mkRow "customer"
               (<["user_id" := JStr (auth_id u)]>
                  {["lemonsqueezy_customer_id" := cid]})])
    = Ok (r :: rest).
Proof.
  intros Hcoll (keep & Hfilter & Hkeep). unfold find_in, customer_filter.
  rewrite Hcoll, Hfilter, (matching_ext _ _ _ _ Hkeep), matching_snoc.
  assert (Hhit : hit "customer" (field_is "user_id" (auth_id u))
                   (mkRow "customer"
                      (<["user_id" := JStr (auth_id u)]>
                         {["lemonsqueezy_customer_id" := cid]})) = true).
  { unfold hit, field_is. cbn [row_coll row_data].
    rewrite lookup_insert_eq, !String.eqb_refl. reflexivity. }
  rewrite Hhit.
  destruct (matching "customer" _ s) as [| r rest]; cbn; eauto.
Qed.


(** ** The handlers run on the reference host *)

(** Two deliveries for the same subscription id: one record, holding the
    values of the second delivery. *)
Example replay_updates_in_place :
  let h := Reference.host (Reference.vendor [] [] []) in
  let created := Reference.signed "created"
                   (Reference.subscription_event "subscription_created" "42"
                      "active") in
  let cancelled := Reference.signed "cancelled"
                     (Reference.subscription_event "subscription_cancelled"
                        "42" "cancelled") in
  let w1 := snd (lemonsqueezy h created Reference.empty_world) in
  let w2 := snd (lemonsqueezy h cancelled w1) in
  length (store w1) = 1%nat
  /\ length (store w2) = 1%nat
  /\ (row_data <$> store w2 !! 0%nat) ≫= (.!! "status")
     = Some (JStr "cancelled")
  /\ saves (trace w2) = 2%nat.
Proof. vm_compute. repeat split. Qed.

(** A sync run over one item per list creates one record per collection. *)
Example sync_creates_each_kind :
  let item := JObj [ ("id", JStr "9");
                     ("attributes", JObj [ ("status", JStr "published");
                                           ("product_id", JNum 3) ]) ] in
  let h := Reference.host (Reference.vendor [item] [item] [item]) in
  let run := manual_lemonsqueezy_synchronization h (mkRequest ∅ "" JNull)
               Reference.empty_world in
  fst run = Ok (json (JNum 200) (JObj [("message", JStr "success")]))
  /\ row_coll <$> store (snd run) = ["subscription"; "variant"; "product"].
Proof. vm_compute. split; reflexivity. Qed.

(** A caller without a token is answered 400 before any lookup. *)
Example checkout_unauthorized :
  create_checkout_session (Reference.host Reference.unreachable)
    (mkRequest ∅ "" (JObj [])) Reference.empty_world
  = (Ok (json (JNum 400) (JObj [("message", JStr "User not authorized")])),
     mkWorld [] [EvAuth ""]).
Proof. reflexivity. Qed.

(** * Further properties of the handlers *)

(** ** The webhook handler's outcomes *)

Section WebhookOutcomes.

Variable H : Host.

(** A find-then-update-or-create that throws has written nothing. *)
Lemma update_or_create_throw (coll : string) (existing : list DbRecord)
    (data : Obj) (w w' : World) (e : Exn) :
  update_or_create H coll existing data w = (Throw e, w') ->
  store w' = store w.
Proof.
  unfold update_or_create, findCollectionByNameOrId, saveRecord.
  unfold bind, emit, ret, throw.
  destruct existing as [| r0 rest]; cbn [store trace].
  - destruct (has_collection H coll); [| intros [= _ <-]; reflexivity].
    cbn [store trace].
    destruct (save_check H _ _); [intros [= _ <-]; reflexivity |].
    discriminate.
  - destruct (save_check H _ _); [intros [= _ <-]; reflexivity |].
    destruct (rec_id _); discriminate.
Qed.

Lemma upsert_subscription_throw (subscription : JSValue) (w w' : World)
    (e : Exn) :
  upsert_subscription H subscription w = (Throw e, w') ->
  store w' = store w.
Proof.
  unfold upsert_subscription, findRecordsByFilter.
  unfold bind at 1. unfold lift.
  destruct (prop subscription "id") as [sid | e1];
    [| intros [= _ <-]; reflexivity].
  unfold bind at 1. unfold bind at 1. unfold emit. cbn [store trace].
  destruct (find_in H _ _ (store w)) as [existing | e1];
    [| intros [= _ <-]; reflexivity].
  intros Hrun. apply update_or_create_throw in Hrun. exact Hrun.
Qed.

(** The [try]/[catch] around the subscription block: what comes out when
    the block throws. *)
Lemma subscription_block_throw (m : M unit) (w w' : World) (e : Exn) :
  (forall e1 w1, m w = (Throw e1, w1) -> store w1 = store w) ->
  try_catch m subscription_failed w = (Throw e, w') ->
  (exists msg,
      e = BadRequestError ("Failed to process subscription: " ++ msg))
  /\ store w' = store w.
Proof.
  intros Hm. unfold try_catch.
  destruct (m w) as [[[] | e1] w1] eqn:Hrun; [discriminate |].
  unfold subscription_failed, logger_error, bind, emit, throw.
  intros [= <- <-]. split; [eauto |]. cbn [store]. eapply Hm. reflexivity.
Qed.

Lemma lemonsqueezy_cases (c : Request) (w w' : World)
    (r : Result Response) :
  lemonsqueezy H c w = (r, w') ->
  r = Ok (json (JNum 200)
               (JObj [("message", JStr "Data received successfully")]))
  \/ (store w' = store w
      /\ (r = Throw (BadRequestError "Invalid webhook signature.")
          \/ (exists msg, r = Throw (TypeError msg))
          \/ exists msg,
               r = Throw (BadRequestError
                            ("Failed to process subscription: " ++ msg)))).
Proof.
  unfold lemonsqueezy.
  destruct (negb _).
  { intros [= <- <-]. right. split; [reflexivity | left; reflexivity]. }
  unfold bind at 1. unfold lift at 1.
  destruct (event_name (req_data c)) as [name | e] eqn:Hname.
  2:{ intros [= <- <-]. right. split; [reflexivity |]. right. left.
      unfold event_name in Hname.
      destruct (prop (req_data c) "meta") as [meta | e1] eqn:Hmeta.
      - destruct meta; cbn in Hname; try discriminate;
          injection Hname as <-; eauto.
      - injection Hname as <-.
        destruct (req_data c); cbn in Hmeta; try discriminate;
          injection Hmeta as <-; eauto. }
  unfold bind at 1. unfold logger_info, emit.
  destruct (recognized_event name).
  - unfold bind at 1.
    match goal with
    | |- context [try_catch ?m subscription_failed ?w0] =>
        destruct (try_catch m subscription_failed w0)
          as [[[] | e] w1] eqn:Hrun;
        [intros [= <- _]; left; reflexivity |];
        apply (subscription_block_throw m w0 w1 e) in Hrun
    end.
    + destruct Hrun as ((msg & ->) & Hstore). intros [= <- <-].
      right. split; [exact Hstore |]. right. right. eauto.
    + intros e1 w2. unfold bind at 1. unfold lift.
      destruct (prop (req_data c) "data") as [subscription | e2];
        [| intros [= _ <-]; reflexivity].
      apply upsert_subscription_throw.
  - intros [= <- _]. left. reflexivity.
Qed.

(** The handler either answers 200 or throws one of three errors (the
    signature rejection, the [TypeError] of reading [data.meta.event_name],
    or the [BadRequestError] that wraps a failed upsert), and whenever it
    throws the store is the one it started from. *)
Theorem webhook_outcomes (c : Request) (w : World) :
  let run := lemonsqueezy H c w in
  fst run = Ok (json (JNum 200)
                     (JObj [("message", JStr "Data received successfully")]))
  \/ (store (snd run) = store w
      /\ (fst run = Throw (BadRequestError "Invalid webhook signature.")
          \/ (exists msg, fst run = Throw (TypeError msg))
          \/ exists msg,
               fst run
               = Throw (BadRequestError
                          ("Failed to process subscription: " ++ msg)))).
Proof.
  cbn zeta. destruct (lemonsqueezy H c w) as [r w'] eqn:Hrun.
  apply lemonsqueezy_cases in Hrun. exact Hrun.
Qed.

(** The handler on a validly signed delivery with a handled name. *)
Lemma lemonsqueezy_recognized (c : Request) (w : World) (name : JSValue) :
  hs256 H (req_rawBody c) (secret H) = signature_of c ->
  event_name (req_data c) = Ok name ->
  recognized_event name = true ->
  lemonsqueezy H c w
  = (try_catch
       (let! subscription := lift (prop (req_data c) "data") in
        upsert_subscription H subscription)
       subscription_failed;;
     ret (json (JNum 200)
               (JObj [("message", JStr "Data received successfully")])))
      (mkWorld (store w) (trace w ++ [EvLog "info" "Received data:"])).
Proof.
  intros Hsig Hname Hrec. rewrite (lemonsqueezy_valid H c Hsig).
  unfold bind at 1. unfold lift at 1. rewrite Hname.
  unfold bind at 1. unfold logger_info, emit. rewrite Hrec. reflexivity.
Qed.

(** Which of the three handled event names a delivery carries makes no
    difference: two validly signed deliveries with handled names and the
    same [data.data] have the same outcome on the same world. *)
Theorem webhook_event_name_irrelevant (c1 c2 : Request) (w : World)
    (name1 name2 : JSValue) :
  hs256 H (req_rawBody c1) (secret H) = signature_of c1 ->
  hs256 H (req_rawBody c2) (secret H) = signature_of c2 ->
  event_name (req_data c1) = Ok name1 -> recognized_event name1 = true ->
  event_name (req_data c2) = Ok name2 -> recognized_event name2 = true ->
  prop (req_data c1) "data" = prop (req_data c2) "data" ->
  lemonsqueezy H c1 w = lemonsqueezy H c2 w.
Proof.
  intros Hsig1 Hsig2 Hname1 Hrec1 Hname2 Hrec2 Hdata.
  rewrite (lemonsqueezy_recognized c1 w name1 Hsig1 Hname1 Hrec1).
  rewrite (lemonsqueezy_recognized c2 w name2 Hsig2 Hname2 Hrec2).
  rewrite Hdata. reflexivity.
Qed.

End WebhookOutcomes.

Lemma webhook_event_name_irrelevant_witness :
  let h := Reference.host Reference.unreachable in
  let created := Reference.signed "created"
                   (Reference.subscription_event "subscription_created" "42"
                      "cancelled") in
  let cancelled := Reference.signed "cancelled"
                     (Reference.subscription_event "subscription_cancelled"
                        "42" "cancelled") in
  lemonsqueezy h created Reference.empty_world
  = lemonsqueezy h cancelled Reference.empty_world.
Proof.
  intros h created cancelled.
  apply (webhook_event_name_irrelevant h created cancelled
           Reference.empty_world (JStr "subscription_created")
           (JStr "subscription_cancelled"));
    solve [reflexivity | vm_compute; reflexivity].
Defined.

(** ** The object a subscription upsert loads *)

Lemma js_or_defined (a b : JSValue) :
  b <> JUndefined -> b <> JNull ->
  js_or a b <> JUndefined /\ js_or a b <> JNull.
Proof.
  intros Hu Hn. unfold js_or.
  destruct (truthy a) eqn:Ha; [| split; assumption].
  destruct a; cbn in Ha; try discriminate; split; discriminate.
Qed.

(** Apart from [subscription_id], which is the payload's [id] as it came,
    no field of [subscriptionData] is ever [undefined] or [null]; and a
    payload whose [attributes] is not an object yields exactly the
    defaults. *)
Theorem subscriptionData_defaults (subscription id : JSValue) :
  Forall (fun kv => kv.1 = "subscription_id"
                    \/ (kv.2 <> JUndefined /\ kv.2 <> JNull))
         (subscriptionData subscription id)
  /\ ((forall props, opt_prop subscription "attributes" <> JObj props) ->
      subscriptionData subscription id = subscription_defaults id).
Proof.
  split.
  - unfold subscriptionData.
    repeat (apply Forall_cons; split;
            [first [ left; reflexivity
                   | right; apply js_or_defined; discriminate
                   | right; split; discriminate ] |]).
    apply Forall_nil. exact I.
  - intros Hnot. unfold subscriptionData, subscription_defaults.
    destruct (opt_prop subscription "attributes") as [| | | | | |props|];
      try reflexivity.
    destruct (Hnot props). reflexivity.
Qed.

(** ** Upserts keyed by vendor id *)

Section KeyedUpserts.

Variable H : Host.

Lemma keyed_count_snoc (coll k : string) (s : Store) (row : Row) :
  keyed_count coll k (s ++ [row])
  = (keyed_count coll k s
     + if hit coll (field_is (key_field coll) k) row then 1 else 0)%nat.
Proof.
  unfold keyed_count. rewrite matching_snoc, length_app.
  destruct (hit coll _ row); reflexivity.
Qed.

Lemma field_is_lookup (field lit k : string) (data : gmap string JSValue) :
  data !! field = Some (JStr lit) -> field_is field k data = String.eqb lit k.
Proof. intros Hd. unfold field_is. rewrite Hd. reflexivity. Qed.

(** What writing the loaded record does to the number of records per key:
    the key written is present afterwards, no key loses a record, the store
    keeps its size when the key was present, and one-record-per-key is
    kept. *)
Lemma written_counts (coll sid : string) (data : Obj)
    (existing : list DbRecord) (s : Store) :
  equality_filter H (key_field coll) sid ->
  find_in H coll (filter_eq (key_field coll) (JStr sid)) s = Ok existing ->
  last_binding data (key_field coll) = Some (JStr sid) ->
  let s' := written (load data (match existing with
                                | r0 :: _ => r0
                                | [] => new_Record coll
                                end)) s in
  (1 <= keyed_count coll sid s')%nat
  /\ grows s s'
  /\ ((1 <= keyed_count coll sid s)%nat -> length s' = length s)
  /\ (unique_keys coll s ->
      unique_keys coll s' /\ keyed_count coll sid s' = 1%nat).
Proof.
  intros (keep & Hfilter & Hkeep) Hfind Hkey.
  unfold find_in in Hfind. rewrite Hfilter in Hfind.
  destruct (has_collection H coll); [| discriminate].
  injection Hfind as Hexisting.
  rewrite (matching_ext _ _ _ _ Hkeep) in Hexisting.
  assert (Hloaded : forall r,
             rec_data (load data r) !! key_field coll = Some (JStr sid)).
  { intros r. rewrite lookup_load, Hkey. reflexivity. }
  destruct existing as [| r0 rest]; cbn zeta.
  - assert (Hzero : keyed_count coll sid s = 0%nat).
    { unfold keyed_count. rewrite Hexisting. reflexivity. }
    rewrite written_new.
    assert (Hhit : forall k,
               hit coll (field_is (key_field coll) k)
                   (mkRow coll (rec_data (load data (new_Record coll))))
               = String.eqb sid k).
    { intros k. unfold hit. cbn [row_coll row_data].
      rewrite String.eqb_refl, (field_is_lookup _ sid) by apply Hloaded.
      reflexivity. }
    split; [| split; [| split]].
    + rewrite keyed_count_snoc, Hhit, String.eqb_refl. lia.
    + intros coll' k. rewrite keyed_count_snoc. lia.
    + rewrite Hzero. lia.
    + intros Huniq. split.
      * intros k. rewrite keyed_count_snoc, Hhit.
        destruct (String.eqb_spec sid k) as [<- | _].
        -- rewrite Hzero. lia.
        -- specialize (Huniq k). lia.
      * rewrite keyed_count_snoc, Hhit, String.eqb_refl, Hzero. reflexivity.
  - destruct (matching_head _ _ _ _ _ Hexisting)
      as (i & row & Hrow & Hhit & ->).
    assert (Hsome : (1 <= keyed_count coll sid s)%nat).
    { unfold keyed_count. rewrite Hexisting. cbn. lia. }
    rewrite written_found.
    assert (Hsame : forall coll' k,
               keyed_count coll' k
                 (<[i := mkRow (row_coll row)
                           (rec_data (load data
                              (mkRecord (Some i) (row_coll row)
                                        (row_data row))))]> s)
               = keyed_count coll' k s).
    { intros coll' k. unfold keyed_count.
      apply (length_matching_insert _ _ _ _ row); [exact Hrow |].
      unfold hit in *. cbn [row_coll row_data].
      apply andb_prop in Hhit as [Hcoll Hsid].
      apply String.eqb_eq in Hcoll. apply field_is_true in Hsid.
      destruct (String.eqb_spec (row_coll row) coll') as [Heq | _];
        [| reflexivity].
      assert (coll' = coll) as -> by congruence.
      rewrite (field_is_lookup _ sid) by apply Hloaded.
      rewrite (field_is_lookup _ sid) by exact Hsid. reflexivity. }
    split; [| split; [| split]].
    + rewrite Hsame. exact Hsome.
    + intros coll' k. rewrite Hsame. lia.
    + intros _. apply length_insert.
    + intros Huniq. split.
      * intros k. rewrite Hsame. apply Huniq.
      * rewrite Hsame. specialize (Huniq sid). lia.
Qed.

(** What a callback that returned has looked up and written. *)
Lemma callback_ok (st : Stage) (item : JSValue) (w w' : World) :
  callback_of H st item w = (Ok tt, w') ->
  exists sid existing data,
    prop item "id" = Ok sid
    /\ find_in H (coll_of st) (filter_eq (key_field (coll_of st)) sid)
         (store w) = Ok existing
    /\ last_binding data (key_field (coll_of st)) = Some sid
    /\ store w'
       = written (load data (match existing with
                             | r0 :: _ => r0
                             | [] => new_Record (coll_of st)
                             end)) (store w).
Proof.
  destruct st; cbn [callback_of coll_of].
  - intros Hrun. apply process_subscription_ok in Hrun.
    destruct (prop item "id") as [sid | e] eqn:Hid.
    + destruct (upsert_subscription_ok H _ _ _ _ Hid Hrun)
        as (existing & Hfind & Hstore & _).
      exists sid, existing, (subscriptionData item sid).
      repeat split; assumption.
    + unfold upsert_subscription in Hrun. unfold bind at 1 in Hrun.
      unfold lift in Hrun. rewrite Hid in Hrun. discriminate.
  - unfold process_variant, try_catch, findRecordsByFilter.
    unfold bind at 1. unfold lift at 1.
    destruct (prop item "id") as [vid | e]; [| discriminate].
    unfold bind at 1. unfold bind at 1. unfold emit. cbn [store trace].
    destruct (find_in H "variant" _ (store w)) as [existing | e] eqn:Hfind;
      [| discriminate].
    unfold bind at 1. unfold lift at 1.
    destruct (prop item "attributes") as [attributes | e]; [| discriminate].
    unfold bind at 1. unfold lift at 1.
    destruct (prop attributes "product_id") as [pid | e]; [| discriminate].
    destruct (update_or_create H "variant" existing _ _)
      as [[[] | e] w1] eqn:Hrun; [| discriminate].
    intros [= <-]. apply update_or_create_ok in Hrun.
    destruct Hrun as (Hstore & _).
    exists vid, existing, (variantData vid attributes).
    repeat split; assumption.
  - unfold process_product, try_catch, findRecordsByFilter.
    unfold bind at 1. unfold lift at 1.
    destruct (prop item "id") as [pid | e]; [| discriminate].
    unfold bind at 1. unfold bind at 1. unfold emit. cbn [store trace].
    destruct (find_in H "product" _ (store w)) as [existing | e] eqn:Hfind;
      [| discriminate].
    unfold bind at 1. unfold lift at 1.
    destruct (prop item "attributes") as [attributes | e]; [| discriminate].
    unfold bind at 1. unfold lift at 1.
    destruct (prop attributes "status") as [status | e]; [| discriminate].
    destruct (update_or_create H "product" existing _ _)
      as [[[] | e] w1] eqn:Hrun; [| discriminate].
    intros [= <-]. apply update_or_create_ok in Hrun.
    destruct Hrun as (Hstore & _).
    exists pid, existing, (productData pid attributes).
    repeat split; assumption.
Qed.

(** The effect of a callback that returned, on a keyed item. *)
Lemma callback_counts (st : Stage) (item : JSValue) (sid : string)
    (w w' : World) :
  prop item "id" = Ok (JStr sid) ->
  equality_filter H (key_field (coll_of st)) sid ->
  callback_of H st item w = (Ok tt, w') ->
  (1 <= keyed_count (coll_of st) sid (store w'))%nat
  /\ grows (store w) (store w')
  /\ ((1 <= keyed_count (coll_of st) sid (store w))%nat ->
      length (store w') = length (store w))
  /\ (unique_keys (coll_of st) (store w) ->
      unique_keys (coll_of st) (store w')
      /\ keyed_count (coll_of st) sid (store w') = 1%nat).
Proof.
  intros Hid Hfilter Hrun.
  destruct (callback_ok st item w w' Hrun)
    as (sid' & existing & data & Hid' & Hfind & Hkey & ->).
  rewrite Hid in Hid'. injection Hid' as <-.
  apply (written_counts _ _ _ _ _ Hfilter Hfind Hkey).
Qed.

(** Sync callbacks keep one record per vendor id: on a store with at most
    one record per key in the stage's collection, a callback that returns
    on an item with a string id leaves exactly one record for that id and
    at most one for every other. *)
Theorem sync_callback_keeps_one (st : Stage) (item : JSValue) (sid : string)
    (w w' : World) :
  prop item "id" = Ok (JStr sid) ->
  equality_filter H (key_field (coll_of st)) sid ->
  unique_keys (coll_of st) (store w) ->
  callback_of H st item w = (Ok tt, w') ->
  unique_keys (coll_of st) (store w')
  /\ keyed_count (coll_of st) sid (store w') = 1%nat.
Proof.
  intros Hid Hfilter Huniq Hrun.
  destruct (callback_counts st item sid w w' Hid Hfilter Hrun)
    as (_ & _ & _ & Hkeep).
  apply Hkeep, Huniq.
Qed.

End KeyedUpserts.

Lemma sync_callback_keeps_one_witness :
  let h := Reference.host (Reference.vendor [] [] []) in
  let item := JObj [ ("id", JStr "9");
                     ("attributes", JObj [ ("product_id", JNum 3);
                                           ("status", JStr "published") ]) ] in
  let w := mkWorld [mkRow "variant" {[ "variant_id" := JStr "9";
                                       "description" := JStr "old" ]}] [] in
  let w' := snd (process_variant h item w) in
  unique_keys "variant" (store w')
  /\ keyed_count "variant" "9" (store w') = 1%nat.
Proof.
  intros h item w w'.
  apply (sync_callback_keeps_one h Variants item "9" w w').
  - reflexivity.
  - exists (field_is "variant_id" "9").
    split; [vm_compute; reflexivity | reflexivity].
  - intros k. unfold keyed_count. rewrite length_matching.
    exact (length_filter _ (store w)).
  - vm_compute. reflexivity.
Defined.

(** ** Running the sync job again *)

Section Rerun.

Variable H : Host.

Lemma grows_refl (s : Store) : grows s s.
Proof. intros coll k. lia. Qed.

Lemma grows_trans (s1 s2 s3 : Store) :
  grows s1 s2 -> grows s2 s3 -> grows s1 s3.
Proof.
  intros H12 H23 coll k. specialize (H12 coll k). specialize (H23 coll k). lia.
Qed.

Lemma listed_present_grows (st : Stage) (s s' : Store) :
  listed_present H st s -> grows s s' -> listed_present H st s'.
Proof.
  intros Hp Hg items Hlist item sid Hin Hid.
  specialize (Hp items Hlist item sid Hin Hid).
  specialize (Hg (coll_of st) sid). lia.
Qed.

(** A loop that returned: every item it ran on has a record afterwards, and
    no key lost one. *)
Lemma forEach_callback_first (st : Stage) (items : list JSValue)
    (w w' : World) :
  (forall item, item ∈ items -> keyed H (key_field (coll_of st)) item) ->
  forEach (callback_of H st) items w = (Ok tt, w') ->
  grows (store w) (store w')
  /\ forall item sid,
       item ∈ items -> prop item "id" = Ok (JStr sid) ->
       (1 <= keyed_count (coll_of st) sid (store w'))%nat.
Proof.
  revert w. induction items as [| x items IH]; intros w Hkeyed.
  - intros [= <-]. split; [apply grows_refl |].
    intros item sid Hin. inversion Hin.
  - cbn [forEach]. unfold bind.
    destruct (callback_of H st x w) as [[[] | e] w1] eqn:Hx; [| discriminate].
    intros Hrest.
    destruct (IH w1 (fun item Hin => Hkeyed item (list_elem_of_further _ _ _ Hin))
                Hrest) as (Hgrow & Hpresent).
    destruct (Hkeyed x (list_elem_of_here _ _)) as (sidx & Hidx & Hfx).
    destruct (callback_counts H st x sidx w w1 Hidx Hfx Hx)
      as (Hone & Hgrow1 & _).
    split; [eapply grows_trans; eassumption |].
    intros item sid Hin Hid. apply elem_of_cons in Hin as [-> | Hin].
    + rewrite Hidx in Hid. injection Hid as <-.
      specialize (Hgrow (coll_of st) sidx). lia.
    + apply (Hpresent item sid Hin Hid).
Qed.

(** A loop that returned on items that all had a record: the store has the
    size it had. *)
Lemma forEach_callback_again (st : Stage) (items : list JSValue)
    (w w' : World) :
  (forall item, item ∈ items -> keyed H (key_field (coll_of st)) item) ->
  (forall item sid,
      item ∈ items -> prop item "id" = Ok (JStr sid) ->
      (1 <= keyed_count (coll_of st) sid (store w))%nat) ->
  forEach (callback_of H st) items w = (Ok tt, w') ->
  length (store w') = length (store w) /\ grows (store w) (store w').
Proof.
  revert w. induction items as [| x items IH]; intros w Hkeyed Hpresent.
  - intros [= <-]. split; [reflexivity | apply grows_refl].
  - cbn [forEach]. unfold bind.
    destruct (callback_of H st x w) as [[[] | e] w1] eqn:Hx; [| discriminate].
    intros Hrest.
    destruct (Hkeyed x (list_elem_of_here _ _)) as (sidx & Hidx & Hfx).
    destruct (callback_counts H st x sidx w w1 Hidx Hfx Hx)
      as (_ & Hgrow1 & Hsame & _).
    specialize (Hsame (Hpresent x sidx (list_elem_of_here _ _) Hidx)).
    destruct (IH w1) as (Hlen & Hgrow); [| | exact Hrest |].
    + intros item Hin. apply Hkeyed, list_elem_of_further, Hin.
    + intros item sid Hin Hid.
      specialize (Hpresent item sid (list_elem_of_further _ _ _ Hin) Hid).
      specialize (Hgrow1 (coll_of st) sid). lia.
    + split; [congruence | eapply grows_trans; eassumption].
Qed.

(** A stage that returned ran its loop over the vendor's array. *)
Lemma sync_stage_ok (st : Stage) (w w' : World) :
  sync_stage H (resource_of st) (callback_of H st) w = (Ok tt, w') ->
  exists items,
    vendor_list H (resource_of st) = Ok (JArr items)
    /\ forEach (callback_of H st) items (fetched H (resource_of st) w)
       = (Ok tt, w').
Proof.
  rewrite sync_stage_run.
  destruct (vendor_list H (resource_of st)) as [v | e]; [| discriminate].
  destruct v; cbn [js_forEach]; try discriminate. eauto.
Qed.

Lemma sync_stage_first (st : Stage) (w w' : World) :
  vendor_keyed H ->
  sync_stage H (resource_of st) (callback_of H st) w = (Ok tt, w') ->
  grows (store w) (store w') /\ listed_present H st (store w').
Proof.
  intros Hkeyed Hrun.
  destruct (sync_stage_ok st w w' Hrun) as (items & Hlist & Hloop).
  destruct (forEach_callback_first st items (fetched H (resource_of st) w) w'
              (Hkeyed st items Hlist) Hloop) as (Hgrow & Hpresent).
  split; [exact Hgrow |].
  intros items' Hlist' item sid Hin Hid.
  rewrite Hlist in Hlist'. injection Hlist' as <-.
  apply (Hpresent item sid Hin Hid).
Qed.

Lemma sync_stage_again (st : Stage) (w w' : World) :
  vendor_keyed H ->
  listed_present H st (store w) ->
  sync_stage H (resource_of st) (callback_of H st) w = (Ok tt, w') ->
  length (store w') = length (store w) /\ grows (store w) (store w').
Proof.
  intros Hkeyed Hpresent Hrun.
  destruct (sync_stage_ok st w w' Hrun) as (items & Hlist & Hloop).
  apply (forEach_callback_again st items (fetched H (resource_of st) w) w'
           (Hkeyed st items Hlist) (Hpresent items Hlist) Hloop).
Qed.

(** A run that answered 200 ran its three stages to the end. *)
Lemma sync_succeeded (c : Request) (w w' : World) (resp : Response) :
  manual_lemonsqueezy_synchronization H c w = (Ok resp, w') ->
  status resp = JNum 200 ->
  exists wa wb wc,
    sync_stage H (resource_of Subscriptions) (callback_of H Subscriptions) w
    = (Ok tt, wa)
    /\ sync_stage H (resource_of Variants) (callback_of H Variants) wa
       = (Ok tt, wb)
    /\ sync_stage H (resource_of Products) (callback_of H Products) wb
       = (Ok tt, wc)
    /\ store w' = store wc.
Proof.
  unfold manual_lemonsqueezy_synchronization, try_catch, sync_all.
  cbn [resource_of callback_of].
  unfold bind at 1.
  destruct (sync_stage H "subscriptions" _ w) as [[[] | e] wa] eqn:Ha.
  2:{ intros [= <- _]. discriminate. }
  unfold bind at 1.
  destruct (sync_stage H "variants" _ wa) as [[[] | e] wb] eqn:Hb.
  2:{ intros [= <- _]. discriminate. }
  unfold bind at 1.
  destruct (sync_stage H "products" _ wb) as [[[] | e] wc] eqn:Hc.
  2:{ intros [= <- _]. discriminate. }
  intros [= _ <-] _. exists wa, wb, wc. repeat split; assumption.
Qed.

(** Running the job again adds nothing: when the vendor's items carry
    string ids that the host's filters compare by equality, and two runs in
    a row both answer 200, the second run leaves the store with the number
    of records the first run left. *)
Theorem sync_rerun_adds_nothing (c1 c2 : Request) (w w1 w2 : World)
    (resp1 resp2 : Response) :
  vendor_keyed H ->
  manual_lemonsqueezy_synchronization H c1 w = (Ok resp1, w1) ->
  status resp1 = JNum 200 ->
  manual_lemonsqueezy_synchronization H c2 w1 = (Ok resp2, w2) ->
  status resp2 = JNum 200 ->
  length (store w2) = length (store w1).
Proof.
  intros Hkeyed Hrun1 Hok1 Hrun2 Hok2.
  destruct (sync_succeeded c1 w w1 resp1 Hrun1 Hok1)
    as (wa & wb & wc & Ha & Hb & Hc & Hw1).
  destruct (sync_succeeded c2 w1 w2 resp2 Hrun2 Hok2)
    as (wa' & wb' & wc' & Ha' & Hb' & Hc' & Hw2).
  destruct (sync_stage_first Subscriptions w wa Hkeyed Ha) as (_ & Hpa).
  destruct (sync_stage_first Variants wa wb Hkeyed Hb) as (Hgb & Hpb).
  destruct (sync_stage_first Products wb wc Hkeyed Hc) as (Hgc & Hpc).
  rewrite <- Hw1 in Hgc, Hpc.
  assert (Hp1 : listed_present H Subscriptions (store w1)).
  { eapply listed_present_grows; [exact Hpa |].
    eapply grows_trans; eassumption. }
  assert (Hp2 : listed_present H Variants (store w1)).
  { eapply listed_present_grows; eassumption. }
  destruct (sync_stage_again Subscriptions w1 wa' Hkeyed Hp1 Ha')
    as (Hla & Hga).
  destruct (sync_stage_again Variants wa' wb' Hkeyed
              (listed_present_grows _ _ _ Hp2 Hga) Hb') as (Hlb & Hgb').
  destruct (sync_stage_again Products wb' wc' Hkeyed
              (listed_present_grows _ _ _ Hpc
                 (grows_trans _ _ _ Hga Hgb')) Hc') as (Hlc & _).
  congruence.
Qed.

End Rerun.

Lemma sync_rerun_adds_nothing_witness :
  let item := JObj [ ("id", JStr "9");
                     ("attributes", JObj [ ("status", JStr "published");
                                           ("product_id", JNum 3) ]) ] in
  let h := Reference.host (Reference.vendor [item] [item] [item]) in
  let c := mkRequest ∅ "" JNull in
  let w1 := snd (manual_lemonsqueezy_synchronization h c
                   Reference.empty_world) in
  let w2 := snd (manual_lemonsqueezy_synchronization h c w1) in
  length (store w2) = length (store w1).
Proof.
  intros item h c w1 w2.
  apply (sync_rerun_adds_nothing h c c Reference.empty_world w1 w2
           (json (JNum 200) (JObj [("message", JStr "success")]))
           (json (JNum 200) (JObj [("message", JStr "success")]))).
  - intros st items Hlist x Hin.
    destruct st; vm_compute in Hlist; injection Hlist as <-;
      apply list_elem_of_singleton in Hin; subst x;
      exists "9"; (split; [reflexivity |]);
      match goal with
      | |- equality_filter _ ?field _ => exists (field_is field "9")
      end;
      (split; [vm_compute; reflexivity | reflexivity]).
  - vm_compute. reflexivity.
  - reflexivity.
  - vm_compute. reflexivity.
  - reflexivity.
Defined.

(** ** Sync callbacks that fail *)

Section CallbackFailures.

Variable H : Host.

(** The shape of the three callbacks: a [try] whose [catch] logs and throws
    a [BadRequestError] that carries the caught message. *)
Lemma caught_rethrown (m : M unit) (logmsg prefix : string) (w w' : World)
    (e : Exn) :
  (forall e1 w1, m w = (Throw e1, w1) -> store w1 = store w) ->
  try_catch m
    (fun err => logger_error logmsg;;
                throw (BadRequestError (prefix ++ message err))) w
  = (Throw e, w') ->
  (exists msg, e = BadRequestError (prefix ++ msg))
  /\ store w' = store w
  /\ last (trace w') = Some (EvLog "error" logmsg).
Proof.
  intros Hm. unfold try_catch.
  destruct (m w) as [[[] | e1] w1] eqn:Hrun; [discriminate |].
  unfold logger_error, bind, emit, throw.
  intros [= <- <-]. split; [eauto |]. cbn [store trace].
  split; [eapply Hm; reflexivity | apply last_snoc].
Qed.

(** The lookup-then-write part of a callback, with the reads in between
    that cannot touch the store. *)
Lemma keyed_block_throw (coll field : string) (item : JSValue)
    (k : JSValue -> list DbRecord -> M unit) (w w' : World) (e : Exn) :
  (forall vid existing w0 w1 e1,
      k vid existing w0 = (Throw e1, w1) -> store w1 = store w0) ->
  (let! vid := lift (prop item "id") in
   let! existing := findRecordsByFilter H coll (filter_eq field vid) in
   k vid existing) w = (Throw e, w') ->
  store w' = store w.
Proof.
  intros Hk. unfold findRecordsByFilter.
  unfold bind at 1. unfold lift at 1.
  destruct (prop item "id") as [vid | e1]; [| intros [= _ <-]; reflexivity].
  unfold bind at 1. unfold bind at 1. unfold emit. cbn [store trace].
  destruct (find_in H coll _ (store w)) as [existing | e1];
    [| intros [= _ <-]; reflexivity].
  intros Hrun. apply Hk in Hrun. exact Hrun.
Qed.

Lemma variant_block_throw (variant : JSValue) (w w' : World) (e : Exn) :
  (let! vid := lift (prop variant "id") in
   let! existingVariants :=
     findRecordsByFilter H "variant" (filter_eq "variant_id" vid) in
   let! attributes := lift (prop variant "attributes") in
   let! product_id := lift (prop attributes "product_id") in
   update_or_create H "variant" existingVariants
     (variantData vid attributes)) w = (Throw e, w') ->
  store w' = store w.
Proof.
  apply (keyed_block_throw "variant" "variant_id" variant
           (fun vid existing =>
              let! attributes := lift (prop variant "attributes") in
              let! product_id := lift (prop attributes "product_id") in
              update_or_create H "variant" existing
                (variantData vid attributes))).
  intros vid existing w0 w1 e1. unfold bind at 1. unfold lift at 1.
  destruct (prop variant "attributes") as [attributes | e2];
    [| intros [= _ <-]; reflexivity].
  unfold bind at 1. unfold lift at 1.
  destruct (prop attributes "product_id");
    [| intros [= _ <-]; reflexivity].
  apply update_or_create_throw.
Qed.

Lemma product_block_throw (product : JSValue) (w w' : World) (e : Exn) :
  (let! pid := lift (prop product "id") in
   let! existingProducts :=
     findRecordsByFilter H "product" (filter_eq "product_id" pid) in
   let! attributes := lift (prop product "attributes") in
   let! status := lift (prop attributes "status") in
   update_or_create H "product" existingProducts
     (productData pid attributes)) w = (Throw e, w') ->
  store w' = store w.
Proof.
  apply (keyed_block_throw "product" "product_id" product
           (fun pid existing =>
              let! attributes := lift (prop product "attributes") in
              let! status := lift (prop attributes "status") in
              update_or_create H "product" existing
                (productData pid attributes))).
  intros pid existing w0 w1 e1. unfold bind at 1. unfold lift at 1.
  destruct (prop product "attributes") as [attributes | e2];
    [| intros [= _ <-]; reflexivity].
  unfold bind at 1. unfold lift at 1.
  destruct (prop attributes "status");
    [| intros [= _ <-]; reflexivity].
  apply update_or_create_throw.
Qed.

(** A sync callback that throws has written nothing: the store is the one
    it was called on, the error is a [BadRequestError] whose message starts
    with [Failed to process <kind>: ], and the last host call is the error
    log entry. *)
Theorem sync_callback_fails_cleanly (st : Stage) (item : JSValue)
    (w w' : World) (e : Exn) :
  callback_of H st item w = (Throw e, w') ->
  (exists msg,
      e = BadRequestError ("Failed to process " ++ coll_of st ++ ": " ++ msg))
  /\ store w' = store w
  /\ last (trace w')
     = Some (EvLog "error" ("Error processing " ++ coll_of st ++ ":")).
Proof.
  destruct st; cbn [callback_of coll_of]; intros Hrun.
  - apply (caught_rethrown (upsert_subscription H item)
             "Error processing subscription:"
             "Failed to process subscription: " w w' e);
      [| exact Hrun].
    intros e1 w1. apply upsert_subscription_throw.
  - unfold process_variant in Hrun.
    refine (caught_rethrown _ "Error processing variant:"
              "Failed to process variant: " w w' e _ Hrun).
    intros e1 w1. apply variant_block_throw.
  - unfold process_product in Hrun.
    refine (caught_rethrown _ "Error processing product:"
              "Failed to process product: " w w' e _ Hrun).
    intros e1 w1. apply product_block_throw.
Qed.

(** A variant or product item whose [attributes] is [undefined] or [null]
    cannot be processed: the callback throws before any [saveRecord], the
    store unchanged.  (The subscription callback reads [attributes] through
    [?.] and has no such case.) *)
Theorem item_without_attributes (st : Stage) (item attributes : JSValue)
    (w : World) :
  st <> Subscriptions ->
  prop item "attributes" = Ok attributes ->
  attributes = JUndefined \/ attributes = JNull ->
  exists msg w',
    callback_of H st item w = (Throw (BadRequestError msg), w')
    /\ store w' = store w
    /\ saves (trace w') = saves (trace w).
Proof.
  intros Hst Hattr Hmissing.
  assert (Hid : exists vid, prop item "id" = Ok vid).
  { destruct item; cbn in Hattr |- *; try discriminate; eauto. }
  destruct Hid as (vid & Hid).
  destruct st; [contradiction | |]; cbn [callback_of].
  - unfold process_variant, try_catch, findRecordsByFilter, logger_error.
    unfold bind, lift, emit, throw. rewrite Hid. cbn [store trace].
    destruct (find_in H "variant" _ (store w)) as [existing | e].
    + rewrite Hattr.
      destruct Hmissing as [-> | ->]; cbn; eexists _, _;
        (split; [reflexivity |]); cbn [store trace];
        (split; [reflexivity |]); rewrite !saves_snoc; cbn; lia.
    + eexists _, _. split; [reflexivity |]. cbn [store trace].
      split; [reflexivity |]. rewrite !saves_snoc. cbn. lia.
  - unfold process_product, try_catch, findRecordsByFilter, logger_error.
    unfold bind, lift, emit, throw. rewrite Hid. cbn [store trace].
    destruct (find_in H "product" _ (store w)) as [existing | e].
    + rewrite Hattr.
      destruct Hmissing as [-> | ->]; cbn; eexists _, _;
        (split; [reflexivity |]); cbn [store trace];
        (split; [reflexivity |]); rewrite !saves_snoc; cbn; lia.
    + eexists _, _. split; [reflexivity |]. cbn [store trace].
      split; [reflexivity |]. rewrite !saves_snoc. cbn. lia.
Qed.

End CallbackFailures.

Lemma sync_callback_fails_cleanly_witness :
  let h := Reference.host Reference.unreachable in
  let item := JObj [ ("id", JStr "2");
                     ("attributes", JObj [("status", JStr "rejected")]) ] in
  let w := Reference.empty_world in
  let e := BadRequestError
             "Failed to process subscription: validation failed: status" in
  let w' := snd (process_subscription h item w) in
  (exists msg,
      e = BadRequestError ("Failed to process " ++ "subscription" ++ ": "
                           ++ msg))
  /\ store w' = store w
  /\ last (trace w')
     = Some (EvLog "error" ("Error processing " ++ "subscription" ++ ":")).
Proof.
  intros h item w e w'.
  apply (sync_callback_fails_cleanly h Subscriptions item w w' e).
  vm_compute. reflexivity.
Defined.

Lemma item_without_attributes_witness :
  let h := Reference.host Reference.unreachable in
  let item := JObj [("id", JStr "3")] in
  let w := Reference.empty_world in
  exists msg w',
    process_product h item w = (Throw (BadRequestError msg), w')
    /\ store w' = store w
    /\ saves (trace w') = saves (trace w).
Proof.
  intros h item w.
  apply (item_without_attributes h Products item JUndefined w).
  - discriminate.
  - reflexivity.
  - left. reflexivity.
Defined.

(** ** The sync job's answers *)

Section SyncAnswers.

Variable H : Host.


(** A stage that throws ends the job there. *)
Lemma sync_stage_throw (c : Request) (st : Stage) (w w0 w2 : World)
    (e : Exn) :
  stages_before H st w = (Ok tt, w0) ->
  sync_stage H (resource_of st) (callback_of H st) w0 = (Throw e, w2) ->
  manual_lemonsqueezy_synchronization H c w
  = (Ok (json (JNum 400) (JObj [("message", JErr e)])),
     mkWorld (store w2)
       (trace w2 ++ [EvLog "error" "Error during synchronization:"])).
Proof.
  intros Hbefore Hstage. apply sync_failed. unfold sync_all.
  destruct st; cbn [resource_of callback_of stages_before] in Hbefore, Hstage.
  - injection Hbefore as <-. unfold bind at 1. rewrite Hstage. reflexivity.
  - unfold bind at 1. rewrite Hbefore. unfold bind at 1. rewrite Hstage.
    reflexivity.
  - unfold bind at 1 in Hbefore. unfold bind at 1.
    destruct (sync_stage H "subscriptions" _ w) as [[[] | e'] w'];
      [| discriminate].
    unfold bind at 1. rewrite Hbefore. unfold bind at 1. rewrite Hstage.
    reflexivity.
Qed.

(** When the vendor's answer to a stage's list request yields no array
    (transport error, unreadable body, [data] missing or of another type),
    the job stops right after that request: nothing is written, no later
    request is sent, and the answer is 400. *)
Theorem sync_unusable_list (c : Request) (st : Stage) (w w0 : World) :
  stages_before H st w = (Ok tt, w0) ->
  (forall items, vendor_list H (resource_of st) <> Ok (JArr items)) ->
  exists e,
    manual_lemonsqueezy_synchronization H c w
    = (Ok (json (JNum 400) (JObj [("message", JErr e)])),
       mkWorld (store w0)
         (trace w0 ++ [ EvHttp (list_request H (resource_of st));
                        EvLog "error" "Error during synchronization:" ])).
Proof.
  intros Hbefore Hnone.
  assert (Hstage : exists e,
             sync_stage H (resource_of st) (callback_of H st) w0
             = (Throw e, fetched H (resource_of st) w0)).
  { rewrite sync_stage_run.
    destruct (vendor_list H (resource_of st)) as [v | e] eqn:Hlist;
      [| eauto].
    destruct v; cbn [js_forEach]; unfold throw; eauto.
    destruct (Hnone items). reflexivity. }
  destruct Hstage as (e & Hstage). exists e.
  rewrite (sync_stage_throw c st w w0 _ e Hbefore Hstage).
  unfold fetched. cbn [store trace]. rewrite <- app_assoc. reflexivity.
Qed.

End SyncAnswers.

Lemma sync_unusable_list_witness :
  let h := Reference.host Reference.unreachable in
  let c := mkRequest ∅ "" JNull in
  let w := Reference.empty_world in
  exists e,
    manual_lemonsqueezy_synchronization h c w
    = (Ok (json (JNum 400) (JObj [("message", JErr e)])),
       mkWorld (store w)
         (trace w ++ [ EvHttp (list_request h "subscriptions");
                       EvLog "error" "Error during synchronization:" ])).
Proof.
  intros h c w. apply (sync_unusable_list h c Subscriptions w w).
  - reflexivity.
  - intros items. vm_compute. discriminate.
Defined.

(** ** The portal handler *)

Section Portal.

Variable H : Host.

Lemma http_calls_snoc (t : list Event) (e : Event) :
  http_calls (t ++ [e]) = (http_calls t + if is_http e then 1 else 0)%nat.
Proof.
  unfold http_calls. rewrite filter_app, length_app. f_equal.
  rewrite filter_cons. destruct (is_http e); reflexivity.
Qed.

(** The portal handler always answers and only reads: no exception leaves
    it, the store is untouched, no [saveRecord] is attempted, and it sends
    at most one request to the vendor. *)
Theorem portal_only_reads (c : Request) (w : World) :
  exists resp w',
    create_portal_link H c w = (Ok resp, w')
    /\ store w' = store w
    /\ saves (trace w') = saves (trace w)
    /\ (http_calls (trace w') <= S (http_calls (trace w)))%nat.
Proof.
  unfold create_portal_link, try_catch, findAuthRecordByToken,
    findFirstRecordByFilter, findRecordsByFilter, http_send, logger_error.
  unfold bind, lift, emit, ret, throw. cbn [store trace].
  repeat match goal with
         | |- context [match ?x with _ => _ end] =>
             lazymatch x with
             | auth_by_token _ _ => destruct x
             | find_in _ _ _ _ => destruct x as [[| ? ?] | ?]
             | http_response _ _ => destruct x
             | prop _ _ => destruct x
             end; cbn [store trace]
         end;
    eexists _, _; (split; [reflexivity |]); cbn [store trace];
    (split; [reflexivity |]);
    rewrite ?saves_snoc, ?http_calls_snoc; cbn; lia.
Qed.


End Portal.

(** ** Callers and the checkout handler *)

Section Callers.

Variable H : Host.

(** A caller whose token the host refuses is answered 400 by both
    handlers before any lookup or vendor call: [User not authorized] by the
    checkout handler, the generic failure message by the portal handler. *)
Theorem unauthenticated_callers (c : Request) (w : World) (e : Exn) :
  auth_by_token H (token_of c) = Throw e ->
  create_checkout_session H c w
  = (Ok (json (JNum 400) (JObj [("message", JStr "User not authorized")])),
     mkWorld (store w) (trace w ++ [EvAuth (token_of c)]))
  /\ create_portal_link H c w
     = (Ok (json (JNum 400)
                 (JObj [("message",
                         JStr "Failed to retrieve customer portal link")])),
        mkWorld (store w)
          (trace w ++ [ EvAuth (token_of c);
                        EvLog "error"
                          "Error retrieving customer portal link:" ])).
Proof.
  intros Hauth. split.
  - unfold create_checkout_session, try_catch, findAuthRecordByToken.
    unfold bind, lift, emit, ret. rewrite Hauth. reflexivity.
  - unfold create_portal_link, try_catch, findAuthRecordByToken,
      logger_error.
    unfold bind, lift, emit, ret. rewrite Hauth. cbn [store trace].
    rewrite <- app_assoc. reflexivity.
Qed.


Lemma checkout_for_store (c : Request) (u : AuthRecord) (w : World) :
  store (snd (checkout_for H c u w)) = store w
  \/ exists cid,
       store (snd (checkout_for H c u w))
       = (store w
          ++ [mkRow "customer"
                (<["user_id" := JStr (auth_id u)]>
                   {["lemonsqueezy_customer_id" := cid]})])%list.
Proof.
  remember (checkout_for H c u w) as run eqn:Hrun. revert Hrun.
  unfold checkout_for, findRecordsByFilter.
  unfold bind at 1. unfold bind at 1. unfold emit. cbn [store trace].
  destruct (find_in H "customer" (customer_filter u) (store w))
    as [[| r rest] | e].
  - unfold bind at 1.
    destruct (create_customer H u _) as [[cid | e] w1] eqn:Hcreate.
    + intros ->. right. exists cid.
      rewrite checkout_tail_store.
      apply create_customer_ok in Hcreate.
      destruct Hcreate as (_ & _ & _ & -> & _). reflexivity.
    + intros ->. left. apply create_customer_throw in Hcreate.
      cbn [snd]. rewrite Hcreate. reflexivity.
  - unfold bind at 1. unfold ret at 1. intros ->. left.
    rewrite checkout_tail_store. reflexivity.
  - intros ->. left. reflexivity.
Qed.

(** The checkout handler never changes or removes a record of any
    collection: the store it leaves is the one it found, or that store with
    one customer record for the caller appended. *)
Theorem checkout_only_appends (c : Request) (w : World) :
  store (snd (create_checkout_session H c w)) = store w
  \/ exists u cid,
       auth_by_token H (token_of c) = Ok u
       /\ store (snd (create_checkout_session H c w))
          = (store w
             ++ [mkRow "customer"
                   (<["user_id" := JStr (auth_id u)]>
                      {["lemonsqueezy_customer_id" := cid]})])%list.
Proof.
  destruct (auth_by_token H (token_of c)) as [u | e] eqn:Hauth.
  - rewrite (create_checkout_session_auth H c u w Hauth).
    destruct (checkout_for_store c u
                (mkWorld (store w) (trace w ++ [EvAuth (token_of c)])))
      as [Hsame | (cid & Hnew)].
    + left. exact Hsame.
    + right. exists u, cid. split; [reflexivity | exact Hnew].
  - left. unfold create_checkout_session, findAuthRecordByToken.
    unfold bind, try_catch, emit, lift. rewrite Hauth. reflexivity.
Qed.

End Callers.


Lemma unauthenticated_callers_witness :
  let h := Reference.host Reference.unreachable in
  let c := mkRequest ∅ "" (JObj [("variant_id", JStr "9")]) in
  let w := Reference.empty_world in
  create_checkout_session h c w
  = (Ok (json (JNum 400) (JObj [("message", JStr "User not authorized")])),
     mkWorld (store w) (trace w ++ [EvAuth (token_of c)]))
  /\ create_portal_link h c w
     = (Ok (json (JNum 400)
                 (JObj [("message",
                         JStr "Failed to retrieve customer portal link")])),
        mkWorld (store w)
          (trace w ++ [ EvAuth (token_of c);
                        EvLog "error"
                          "Error retrieving customer portal link:" ])).
Proof.
  intros h c w.
  apply (unauthenticated_callers h c w (GoError "invalid token")).
  reflexivity.
Defined.


(** ** Calling checkout again *)

Section CheckoutAgain.

Variable H : Host.

(** A checkout that found no customer record and returned has appended
    the caller's record. *)
Lemma checkout_for_created (c : Request) (u : AuthRecord) (w w' : World)
    (resp : Response) :
  find_in H "customer" (customer_filter u) (store w) = Ok [] ->
  checkout_for H c u w = (Ok resp, w') ->
  exists cid,
    store w'
    = (store w
       ++ [mkRow "customer"
             (<["user_id" := JStr (auth_id u)]>
                {["lemonsqueezy_customer_id" := cid]})])%list.
Proof.
  intros Hfind. unfold checkout_for, findRecordsByFilter.
  unfold bind at 1. unfold bind at 1. unfold emit. cbn [store trace].
  rewrite Hfind. unfold bind at 1.
  destruct (create_customer H u _) as [[cid | e] w1] eqn:Hcreate;
    [| discriminate].
  apply create_customer_ok in Hcreate.
  destruct Hcreate as (_ & _ & _ & Hstore & _). cbn [store] in Hstore.
  intros Hrun. exists cid. rewrite <- Hstore.
  pose proof (checkout_tail_store H c u w1) as Htail.
  rewrite Hrun in Htail. exact Htail.
Qed.

(** Once a checkout call has returned for a caller, a later call by the
    same caller writes nothing: the first call found or created the
    caller's customer record, and the later lookup finds it.  (The host
    reads the filter on [user_id] as equality.) *)
Theorem checkout_again_writes_nothing (c1 c2 : Request) (u : AuthRecord)
    (w w1 : World) (resp : Response) :
  auth_by_token H (token_of c1) = Ok u ->
  auth_by_token H (token_of c2) = Ok u ->
  equality_filter H "user_id" (auth_id u) ->
  create_checkout_session H c1 w = (Ok resp, w1) ->
  store (snd (create_checkout_session H c2 w1)) = store w1
  /\ customer_calls (trace (snd (create_checkout_session H c2 w1)))
     = customer_calls (trace w1).
Proof.
  intros Hauth1 Hauth2 Hfilter Hrun.
  rewrite (create_checkout_session_auth H c1 u w Hauth1) in Hrun.
  assert (Hfound : exists r rest,
             find_in H "customer" (customer_filter u) (store w1)
             = Ok (r :: rest)).
  { destruct (find_in H "customer" (customer_filter u) (store w))
      as [[| r rest] | e] eqn:Hfind.
    - assert (Hcoll : has_collection H "customer" = true).
      { unfold find_in in Hfind.
        destruct (has_collection H "customer"); [reflexivity | discriminate]. }
      destruct (checkout_for_created c1 u
                  (mkWorld (store w) (trace w ++ [EvAuth (token_of c1)]))
                  w1 resp Hfind Hrun) as (cid & ->).
      apply customer_found_after_creation; assumption.
    - destruct (checkout_for_existing H c1 u
                  (mkWorld (store w) (trace w ++ [EvAuth (token_of c1)]))
                  r rest Hfind) as (Hstore & _).
      rewrite Hrun in Hstore. cbn [snd store] in Hstore.
      rewrite Hstore. eauto.
    - unfold checkout_for, findRecordsByFilter in Hrun.
      unfold bind at 1 in Hrun. unfold bind at 1 in Hrun.
      unfold emit in Hrun. cbn [store trace] in Hrun.
      rewrite Hfind in Hrun. discriminate. }
  destruct Hfound as (r & rest & Hfind1).
  rewrite (create_checkout_session_auth H c2 u w1 Hauth2).
  destruct (checkout_for_existing H c2 u
              (mkWorld (store w1) (trace w1 ++ [EvAuth (token_of c2)]))
              r rest Hfind1) as (Hstore & Hcalls).
  cbn [store trace] in Hstore, Hcalls.
  rewrite Hstore, Hcalls, customer_calls_snoc. cbn.
  split; [reflexivity | lia].
Qed.

End CheckoutAgain.

Lemma checkout_again_writes_nothing_witness :
  let h := Reference.host (Reference.vendor [] [] []) in
  let c := mkRequest {[ "authorization" := "alice-token" ]} ""
             (JObj [("variant_id", JStr "9")]) in
  let w1 := snd (create_checkout_session h c Reference.empty_world) in
  store (snd (create_checkout_session h c w1)) = store w1
  /\ customer_calls (trace (snd (create_checkout_session h c w1)))
     = customer_calls (trace w1).
Proof.
  intros h c w1.
  apply (checkout_again_writes_nothing h c c Reference.alice
           Reference.empty_world w1
           (json JUndefined (JObj [("data", JObj [("id", JStr "chk-1")])]))).
  - reflexivity.
  - reflexivity.
  - exists (field_is "user_id" "u4l1c3").
    split; [vm_compute; reflexivity | reflexivity].
  - vm_compute. reflexivity.
Defined.
